(** * Sac Transit display server: feed cache and query engine

    A shallow embedding of [transit_server.py]: the process-wide cache and
    its two TTL-gated refreshes, the service calendar resolver, the arrival
    query, the alert query and the display projection, followed by the
    properties of these functions.  The text functions, the ticker and
    the display driver of the client [pico_w.py] are embedded after the
    server.

    Conventions of the embedding.
    - A Python [str] is the list of its code points ([list N]).
    - A pandas table is the list of its rows, each row a record of typed
      cells; a text cell is [option (list N)] and a numeric cell is
      [option Z], [None] standing for NaN.  The identifier, name and time
      columns are text (dtype object) and the columns the code indexes
      are there, but for the two whose absence it tests; a file in which
      pandas reads such a column as numbers, or which lacks one, is
      outside the embedding.
    - A raised exception is the [Raise] case of [result].
    - The clock ([datetime.now], [time.time]) and the network are explicit
      arguments. *)

From Stdlib Require Import ZArith Lia Ascii String DecimalString DecimalPos.
From stdpp Require Import gmap list strings sorting.

Open Scope Z_scope.

(** ** Python strings *)

Abbreviation pystr := (list N).

(** A literal: the code points of an ASCII string. *)
Definition py (s : string) : pystr :=
  (fun a => N_of_ascii a) <$> list_ascii_of_string s.
Arguments py : simpl never.

(** [str.isspace] for one code point (the whitespace set of CPython). *)
Definition isspace (c : N) : bool :=
  ((9 <=? c) && (c <=? 13) || (28 <=? c) && (c <=? 32)
   || (c =? 133) || (c =? 160) || (c =? 5760)
   || (8192 <=? c) && (c <=? 8202)
   || (c =? 8232) || (c =? 8233) || (c =? 8239) || (c =? 8287)
   || (c =? 12288))%N.

Fixpoint lstrip (s : pystr) : pystr :=
  match s with
  | c :: s' => if isspace c then lstrip s' else s
  | [] => []
  end.

(** [s.strip()] *)
Definition strip (s : pystr) : pystr := rev (lstrip (rev (lstrip s))).

(** [s.lower()] on the ASCII letters; other code points are left as they
    are (the Unicode case tables are not part of the model). *)
Definition lower_char (c : N) : N :=
  if ((65 <=? c) && (c <=? 90))%N then (c + 32)%N else c.

Definition lower (s : pystr) : pystr := lower_char <$> s.

(** [sep.join(parts)] *)
Fixpoint join (sep : pystr) (parts : list pystr) : pystr :=
  match parts with
  | [] => []
  | [p] => p
  | p :: ps => p ++ sep ++ join sep ps
  end.

(** [s[:n]] for any integer [n]: a negative bound counts from the end. *)
Definition slice_to (s : pystr) (n : Z) : pystr :=
  if 0 <=? n then take (Z.to_nat n) s
  else take (Z.to_nat (Z.of_nat (length s) + n)) s.

(** [len(s)] *)
Definition len {A} (l : list A) : Z := Z.of_nat (length l).

(** [str(z)] for an integer, as used by an f-string. *)
Definition str_int (z : Z) : pystr := py (NilZero.string_of_int (Z.to_int z)).

(** [s.split(sep)] for a one-character separator. *)
Fixpoint split (sep : N) (s : pystr) : list pystr :=
  match s with
  | [] => [[]]
  | c :: s' =>
      if (c =? sep)%N then [] :: split sep s'
      else match split sep s' with
           | p :: ps => (c :: p) :: ps
           | [] => [[c]]
           end
  end.

(** ** Exceptions *)

Inductive exn :=
  | HTTPError        (* fetch_bytes: transport failure or raise_for_status *)
  | BadZipFile       (* zipfile.ZipFile on bytes that are no archive *)
  | ParserError      (* pd.read_csv on a member that is no table *)
  | DecodeError      (* FeedMessage.ParseFromString *)
  | ValueError       (* int(), tuple unpacking *)
  | IndexError.      (* list index out of range *)

Inductive result (A : Type) :=
  | Ok (a : A)
  | Raise (e : exn).
Arguments Ok {A} a.
Arguments Raise {A} e.

#[global] Instance result_ret : MRet result := fun A a => Ok a.
#[global] Instance result_bind : MBind result := fun A B f m =>
  match m with
  | Ok a => f a
  | Raise e => Raise e
  end.
#[global] Instance result_fmap : FMap result := fun A B f m =>
  match m with
  | Ok a => Ok (f a)
  | Raise e => Raise e
  end.

(** [mapM]: apply a fallible function along a list, left to right. *)
Fixpoint traverse {A B} (f : A -> result B) (l : list A) : result (list B) :=
  match l with
  | [] => Ok []
  | a :: l' => b ← f a; bs ← traverse f l'; Ok (b :: bs)
  end.

(** [int(s)] on a decimal literal: surrounding whitespace, an optional
    sign, then ASCII digits, with single underscores allowed between
    digits; other text raises [ValueError]. (The decimal digits of other
    scripts, which [int] also reads, are not part of the model; nor is
    the interpreter's limit on the number of digits, nor that [int],
    unlike [str.strip], refuses the separators U+001C to U+001F around
    the literal.  The properties below speak of ASCII digits.) *)
Definition digit (c : N) : option Z :=
  if ((48 <=? c) && (c <=? 57))%N then Some (Z.of_N (c - 48)) else None.

(** [after_digit] tells whether the previous character was a digit: the
    literal may end, and an underscore may come, only after a digit. *)
Fixpoint digits (acc : Z) (after_digit : bool) (s : pystr) : result Z :=
  match s with
  | [] => if after_digit then Ok acc else Raise ValueError
  | c :: s' =>
      match digit c with
      | Some d => digits (10 * acc + d) true s'
      | None =>
          if (c =? 95)%N && after_digit then digits acc false s'
          else Raise ValueError
      end
  end.

Definition int (s : pystr) : result Z :=
  match strip s with
  | 45%N :: ds => Z.opp <$> digits 0 false ds
  | 43%N :: ds => digits 0 false ds
  | ds => digits 0 false ds
  end.

(** ** Dates ([datetime.date]) *)

Record date := { year : Z; month : Z; day : Z }.

Definition _is_leap (y : Z) : bool :=
  (y mod 4 =? 0) && (negb (y mod 100 =? 0) || (y mod 400 =? 0)).

Definition _days_before_year (y : Z) : Z :=
  let y := y - 1 in y * 365 + y / 4 - y / 100 + y / 400.

Definition _DAYS_BEFORE_MONTH : list Z :=
  [0; 31; 59; 90; 120; 151; 181; 212; 243; 273; 304; 334].

Definition _days_before_month (y m : Z) : Z :=
  default 0 (_DAYS_BEFORE_MONTH !! Z.to_nat (m - 1))
  + (if (2 <? m) && _is_leap y then 1 else 0).

Definition toordinal (d : date) : Z :=
  _days_before_year (year d) + _days_before_month (year d) (month d) + day d.

(** [d.weekday()]: Monday is 0. *)
Definition weekday (d : date) : Z := (toordinal d + 6) mod 7.

(** [int(d.strftime("%Y%m%d"))] *)
Definition yyyymmdd (d : date) : Z := year d * 10000 + month d * 100 + day d.

(** The local time read by [datetime.now(PACIFIC)]. *)
Record datetime := { dt_date : date; hour : Z; minute : Z; second : Z }.

(** ** Static schedule tables

    Text cells hold the text of the CSV field, [None] when the field is
    empty (NaN); numeric cells hold an integer, [None] when the field is
    not a number. *)

Abbreviation cell := (option (list N)).
Abbreviation numcell := (option Z).

(** [column.astype(str)] and [str(value)] on a text cell. *)
Definition astype_str (c : cell) : pystr := default (py "nan") c.

(** [pd.to_numeric(column, errors="coerce").fillna(0).astype(int)] *)
Definition to_numeric_fillna0 (c : numcell) : Z := default 0 c.

Record Stop := { stop_id : cell; stop_name : cell }.

Record StopTime := {
  st_trip_id : cell;
  st_stop_id : cell;
  arrival_time : cell;
  departure_time : cell
}.

Record Trip := { trip_id : cell; trip_route_id : cell; trip_service_id : cell }.

(** trips.txt, with whether it has a [service_id] column at all. *)
Record Trips := { trips_has_service_id : bool; trips_rows : list Trip }.

Record Route := {
  route_id : cell;
  route_short_name : cell;
  route_long_name : cell
}.

Inductive Weekday :=
  | monday | tuesday | wednesday | thursday | friday | saturday | sunday.

Record CalendarRule := {
  service_id : cell;
  start_date : numcell;
  end_date : numcell;
  flag : Weekday -> numcell
}.

(** calendar.txt, with which weekday columns it has. *)
Record Calendar := {
  calendar_has_column : Weekday -> bool;
  calendar_rows : list CalendarRule
}.

Record CalendarDate := {
  cd_service_id : cell;
  cd_date : numcell;
  exception_type : numcell
}.

(** ** Realtime messages (GTFS-realtime) *)

Record Translation := { text : pystr; language : pystr }.
Record TranslatedString := { translation : list Translation }.
(** [route_id] of an informed entity is the empty string when unset. *)
Record EntitySelector := { es_route_id : pystr }.
Record Alert := {
  informed_entity : list EntitySelector;
  header_text : TranslatedString;
  description_text : TranslatedString
}.
(** [alert] is [None] when [HasField("alert")] is false. *)
Record FeedEntity := { entity_id : pystr; alert : option Alert }.
Record FeedMessage := { entity : list FeedEntity }.

(** ** Cache *)

Definition GTFS_REFRESH_SECONDS : Z := 24 * 3600.
Definition RT_REFRESH_SECONDS : Z := 15.

Record Cache := {
  gtfs_loaded_at : Z;
  stops : option (list Stop);
  stop_times : option (list StopTime);
  trips : option Trips;
  routes : option (list Route);
  calendar : option Calendar;
  calendar_dates : option (list CalendarDate);
  rt_loaded_at : Z;
  trip_updates : option FeedMessage;
  alerts : option FeedMessage
}.

(** [cache = Cache()] *)
Definition empty_cache : Cache :=
  {| gtfs_loaded_at := 0; stops := None; stop_times := None; trips := None;
     routes := None; calendar := None; calendar_dates := None;
     rt_loaded_at := 0; trip_updates := None; alerts := None |}.

(** ** Feeds as the network serves them *)

(** A member of the schedule archive: absent ([z.open] raises [KeyError]),
    present but no table ([pd.read_csv] raises), or a table. *)
Inductive Member (T : Type) :=
  | Absent
  | Malformed
  | Table (t : T).
Arguments Absent {T}.
Arguments Malformed {T}.
Arguments Table {T} t.

Record Archive := {
  stops_txt : Member (list Stop);
  stop_times_txt : Member (list StopTime);
  trips_txt : Member Trips;
  routes_txt : Member (list Route);
  calendar_txt : Member Calendar;
  calendar_dates_txt : Member (list CalendarDate)
}.

Inductive url := GTFS_ZIP_URL | GTFSRT_TRIPS_URL | GTFSRT_ALERTS_URL.

(** The bytes of an HTTP response, by what they decode to. *)
Inductive bytes :=
  | Garbage
  | ZipOf (z : Archive)
  | MessageOf (m : FeedMessage).

(** What each URL answers at the time of a request; [Raise HTTPError]
    stands for a transport failure or a non-success status. *)
Definition Network : Type := url -> result bytes.

Definition fetch_bytes (net : Network) (u : url) : result bytes := net u.

(** [zipfile.ZipFile(io.BytesIO(zbytes))] *)
Definition ZipFile (b : bytes) : result Archive :=
  match b with
  | ZipOf z => Ok z
  | _ => Raise BadZipFile
  end.

(** [read_csv(name)] of [ensure_gtfs_loaded]: only [KeyError] is caught. *)
Definition read_csv {T} (m : Member T) : result (option T) :=
  match m with
  | Absent => Ok None
  | Malformed => Raise ParserError
  | Table t => Ok (Some t)
  end.

(** [FeedMessage().ParseFromString(bytes)] *)
Definition ParseFromString (b : bytes) : result FeedMessage :=
  match b with
  | MessageOf m => Ok m
  | _ => Raise DecodeError
  end.

(** ** Cache refresh

    The refreshes assign to the fields of the one shared cache as they go,
    so they are functions from the cache to the cache they leave behind and
    the outcome; an exception keeps the assignments made before it. *)

Definition M (A : Type) : Type := Cache -> Cache * result A.

Definition retM {A} (a : A) : M A := fun c => (c, Ok a).

Definition bindM {A B} (m : M A) (k : A -> M B) : M B := fun c =>
  match m c with
  | (c', Ok a) => k a c'
  | (c', Raise e) => (c', Raise e)
  end.

Definition liftM {A} (r : result A) : M A := fun c => (c, r).

Definition assign (f : Cache -> Cache) : M unit := fun c => (f c, Ok tt).

Notation "'let*' x ':=' m 'in' k" := (bindM m (fun x => k))
  (at level 10, x name, m at level 100, k at level 200, only parsing).
Notation "m ;;; k" := (bindM m (fun _ => k))
  (at level 100, k at level 200, only parsing).

Definition set_stops v c :=
  {| gtfs_loaded_at := gtfs_loaded_at c; stops := v; stop_times := stop_times c;
     trips := trips c; routes := routes c; calendar := calendar c;
     calendar_dates := calendar_dates c; rt_loaded_at := rt_loaded_at c;
     trip_updates := trip_updates c; alerts := alerts c |}.
Definition set_stop_times v c :=
  {| gtfs_loaded_at := gtfs_loaded_at c; stops := stops c; stop_times := v;
     trips := trips c; routes := routes c; calendar := calendar c;
     calendar_dates := calendar_dates c; rt_loaded_at := rt_loaded_at c;
     trip_updates := trip_updates c; alerts := alerts c |}.
Definition set_trips v c :=
  {| gtfs_loaded_at := gtfs_loaded_at c; stops := stops c; stop_times := stop_times c;
     trips := v; routes := routes c; calendar := calendar c;
     calendar_dates := calendar_dates c; rt_loaded_at := rt_loaded_at c;
     trip_updates := trip_updates c; alerts := alerts c |}.
Definition set_routes v c :=
  {| gtfs_loaded_at := gtfs_loaded_at c; stops := stops c; stop_times := stop_times c;
     trips := trips c; routes := v; calendar := calendar c;
     calendar_dates := calendar_dates c; rt_loaded_at := rt_loaded_at c;
     trip_updates := trip_updates c; alerts := alerts c |}.
Definition set_calendar v c :=
  {| gtfs_loaded_at := gtfs_loaded_at c; stops := stops c; stop_times := stop_times c;
     trips := trips c; routes := routes c; calendar := v;
     calendar_dates := calendar_dates c; rt_loaded_at := rt_loaded_at c;
     trip_updates := trip_updates c; alerts := alerts c |}.
Definition set_calendar_dates v c :=
  {| gtfs_loaded_at := gtfs_loaded_at c; stops := stops c; stop_times := stop_times c;
     trips := trips c; routes := routes c; calendar := calendar c;
     calendar_dates := v; rt_loaded_at := rt_loaded_at c;
     trip_updates := trip_updates c; alerts := alerts c |}.
Definition set_gtfs_loaded_at v c :=
  {| gtfs_loaded_at := v; stops := stops c; stop_times := stop_times c;
     trips := trips c; routes := routes c; calendar := calendar c;
     calendar_dates := calendar_dates c; rt_loaded_at := rt_loaded_at c;
     trip_updates := trip_updates c; alerts := alerts c |}.
Definition set_trip_updates v c :=
  {| gtfs_loaded_at := gtfs_loaded_at c; stops := stops c; stop_times := stop_times c;
     trips := trips c; routes := routes c; calendar := calendar c;
     calendar_dates := calendar_dates c; rt_loaded_at := rt_loaded_at c;
     trip_updates := v; alerts := alerts c |}.
Definition set_alerts v c :=
  {| gtfs_loaded_at := gtfs_loaded_at c; stops := stops c; stop_times := stop_times c;
     trips := trips c; routes := routes c; calendar := calendar c;
     calendar_dates := calendar_dates c; rt_loaded_at := rt_loaded_at c;
     trip_updates := trip_updates c; alerts := v |}.
Definition set_rt_loaded_at v c :=
  {| gtfs_loaded_at := gtfs_loaded_at c; stops := stops c; stop_times := stop_times c;
     trips := trips c; routes := routes c; calendar := calendar c;
     calendar_dates := calendar_dates c; rt_loaded_at := v;
     trip_updates := trip_updates c; alerts := alerts c |}.

(** [now] is [time.time()], in whole seconds. *)
Definition ensure_gtfs_loaded (now : Z) (net : Network) : M unit := fun cache =>
  if bool_decide (stops cache <> None)
     && (now - gtfs_loaded_at cache <? GTFS_REFRESH_SECONDS)
  then (cache, Ok tt)
  else
    (let* zbytes := liftM (fetch_bytes net GTFS_ZIP_URL) in
     let* z := liftM (ZipFile zbytes) in
     let* t := liftM (read_csv (stops_txt z)) in
     assign (set_stops t) ;;;
     let* t := liftM (read_csv (stop_times_txt z)) in
     assign (set_stop_times t) ;;;
     let* t := liftM (read_csv (trips_txt z)) in
     assign (set_trips t) ;;;
     let* t := liftM (read_csv (routes_txt z)) in
     assign (set_routes t) ;;;
     let* t := liftM (read_csv (calendar_txt z)) in
     assign (set_calendar t) ;;;
     let* t := liftM (read_csv (calendar_dates_txt z)) in
     assign (set_calendar_dates t) ;;;
     assign (set_gtfs_loaded_at now)) cache.

Definition ensure_rt_loaded (now : Z) (net : Network) : M unit := fun cache =>
  if bool_decide (alerts cache <> None)
     && (now - rt_loaded_at cache <? RT_REFRESH_SECONDS)
  then (cache, Ok tt)
  else
    (let* trips_bin := liftM (fetch_bytes net GTFSRT_TRIPS_URL) in
     let* alerts_bin := liftM (fetch_bytes net GTFSRT_ALERTS_URL) in
     let* tu := liftM (ParseFromString trips_bin) in
     let* al := liftM (ParseFromString alerts_bin) in
     assign (set_trip_updates (Some tu)) ;;;
     assign (set_alerts (Some al)) ;;;
     assign (set_rt_loaded_at now)) cache.

(** ** Service calendar resolver *)

Definition _weekday_col (d : date) : Weekday :=
  default monday
    ([monday; tuesday; wednesday; thursday; friday; saturday; sunday]
       !! Z.to_nat (weekday d)).

(** One iteration of the loop over today's calendar_dates rows. *)
Definition apply_exception (active : gset pystr) (r : CalendarDate) : gset pystr :=
  let sid := astype_str (cd_service_id r) in
  let et := to_numeric_fillna0 (exception_type r) in
  if et =? 1 then active ∪ {[sid]}
  else if et =? 2 then active ∖ {[sid]}
  else active.

(** [today] is [datetime.now(PACIFIC).date()]. *)
Definition active_service_ids_for_today (cache : Cache) (today : date) : gset pystr :=
  let today_int := yyyymmdd today in
  let active : gset pystr := ∅ in
  let active :=
    match calendar cache with
    | Some cal =>
        if bool_decide (calendar_rows cal <> []) then
          let wdcol := _weekday_col today in
          let in_range :=
            filter (fun r => to_numeric_fillna0 (start_date r) <= today_int
                             /\ to_numeric_fillna0 (end_date r) >= today_int)
                   (calendar_rows cal) in
          let in_range :=
            if calendar_has_column cal wdcol
            then filter (fun r => to_numeric_fillna0 (flag r wdcol) = 1) in_range
            else in_range in
          active ∪ list_to_set ((fun r => astype_str (service_id r)) <$> in_range)
        else active
    | None => active
    end in
  match calendar_dates cache with
  | Some cald =>
      if bool_decide (cald <> []) then
        let today_rows :=
          filter (fun r => to_numeric_fillna0 (cd_date r) = today_int) cald in
        foldl apply_exception active today_rows
      else active
  | None => active
  end.

(** ** Arrival query *)

Definition _gtfs_time_to_seconds (t : pystr) : result Z :=
  match split 58 t with
  | [h; m; s] =>
      h ← int h; m ← int m; s ← int s;
      Ok (h * 3600 + m * 60 + s)
  | _ => Raise ValueError
  end.

Definition _now_service_seconds (now : datetime) : Z :=
  hour now * 3600 + minute now * 60 + second now.

(** A row of [st2] once [dep_sec] is computed (the columns used later). *)
Record DepRow := { d_trip_id : cell; d_dep_sec : Z }.

(** A row after the merge with trips. *)
Record TripRow := { t_dep_sec : Z; t_route_id : cell; t_service_id : cell }.

(** A row after the merge with routes. *)
Record Row := {
  dep_sec : Z;
  r_route_id : cell;
  r_route_short_name : cell;
  r_route_long_name : cell
}.

(** [left.merge(right, on=key, how="left")]: the rows of [left] in their
    order, each once per matching row of [right] (in the order of [right]),
    or once with NaN in the columns of [right] when nothing matches. *)
Definition merge_left {L R O} (key_l : L -> cell) (key_r : R -> cell)
    (mk : L -> option R -> O) (left : list L) (right : list R) : list O :=
  l ← left;
  match filter (fun r => key_r r = key_l l) right with
  | [] => [mk l None]
  | ms => (fun r => mk l (Some r)) <$> ms
  end.

(** [st[st["stop_id"].astype(str) == str(stop_id)]] *)
Definition rows_of_stop (st : list StopTime) (stop_id : pystr) : list StopTime :=
  filter (fun r => astype_str (st_stop_id r) = stop_id) st.

(** [departure_time.fillna(arrival_time)], [dropna], then
    [map(_gtfs_time_to_seconds)], which raises on the first bad time. *)
Definition dep (r : StopTime) : cell :=
  match departure_time r with
  | Some t => Some t
  | None => arrival_time r
  end.

Definition add_dep_sec (st2 : list StopTime) : result (list DepRow) :=
  traverse
    (fun r => s ← _gtfs_time_to_seconds (astype_str (dep r));
              Ok {| d_trip_id := st_trip_id r; d_dep_sec := s |})
    (filter (fun r => dep r <> None) st2).

(** The window of step 3: four hours ahead, else everything ahead. *)
Definition select_upcoming (now_sec : Z) (st2 : list DepRow) : list DepRow :=
  let horizon := now_sec + 4 * 3600 in
  let upcoming :=
    filter (fun r => d_dep_sec r >= now_sec /\ d_dep_sec r <= horizon) st2 in
  if bool_decide (upcoming = [])
  then filter (fun r => d_dep_sec r >= now_sec) st2
  else upcoming.

Definition merge_trips (upcoming : list DepRow) (trips : Trips) : list TripRow :=
  merge_left d_trip_id trip_id
    (fun l r => {| t_dep_sec := d_dep_sec l;
                   t_route_id := r ≫= trip_route_id;
                   t_service_id := r ≫= trip_service_id |})
    upcoming (trips_rows trips).

(** Lines 205-208: the active-service filter and its guard. *)
Definition filter_active (active_sids : gset pystr) (has_service_id : bool)
    (upcoming : list TripRow) : list TripRow :=
  if bool_decide (active_sids <> ∅) && has_service_id then
    let filtered :=
      filter (fun r => astype_str (t_service_id r) ∈ active_sids) upcoming in
    if bool_decide (filtered <> []) then filtered else upcoming
  else upcoming.

Definition merge_routes (upcoming : list TripRow) (routes : list Route) : list Row :=
  merge_left t_route_id route_id
    (fun l r => {| dep_sec := t_dep_sec l;
                   r_route_id := t_route_id l;
                   r_route_short_name := r ≫= route_short_name;
                   r_route_long_name := r ≫= route_long_name |})
    upcoming routes.

(** [str(value or default)] on a text cell: NaN is truthy, the empty
    string is not. *)
Definition str_or (c : cell) (default : pystr) : pystr :=
  match c with
  | None => py "nan"
  | Some [] => default
  | Some s => s
  end.

Definition route_name (row : Row) : pystr :=
  let sn := strip (str_or (r_route_short_name row) []) in
  if bool_decide (sn <> []) then sn
  else
    let ln := strip (str_or (r_route_long_name row) []) in
    if bool_decide (ln <> []) then ln
    else str_or (r_route_id row) (py "route?").

(** [sort_values("dep_sec")], as an insertion sort that keeps rows of
    equal [dep_sec] in their order.  pandas promises no particular order
    among equal keys (its default sort is not stable), so which of
    several rows of one [dep_sec] comes first is left open by the code;
    the properties below of the arrivals shown do not rest on it. *)
Fixpoint insert_row (r : Row) (l : list Row) : list Row :=
  match l with
  | [] => [r]
  | x :: l' => if dep_sec r <=? dep_sec x then r :: l else x :: insert_row r l'
  end.

Definition sort_values (l : list Row) : list Row := foldr insert_row [] l.

(** The loop of lines 226-235 over the rows still to visit, with its two
    accumulators; the test on [limit] comes after the append. *)
Fixpoint dedup_loop (limit : Z) (seen_dep : gset Z) (rows : list Row)
    (upcoming : list Row) : list Row :=
  match upcoming with
  | [] => rows
  | r :: rest =>
      if bool_decide (dep_sec r ∈ seen_dep) then
        dedup_loop limit seen_dep rows rest
      else
        let seen_dep := seen_dep ∪ {[dep_sec r]} in
        let rows := rows ++ [r] in
        if len rows >=? limit then rows
        else dedup_loop limit seen_dep rows rest
  end.

(** One iteration of the loop of lines 238-240. *)
Definition format_row (now_sec : Z) (r : Row) : pystr :=
  let mins := Z.max 0 ((dep_sec r - now_sec) / 60) in
  route_name r ++ py " " ++ str_int mins.

(** The list [rows] that the query has built when it reaches line 237, or
    the empty list where the query returns early. *)
Definition arrival_rows (cache : Cache) (today : date) (now : datetime)
    (stop_id : pystr) (limit : Z) : result (list Row) :=
  match stop_times cache, trips cache, routes cache with
  | Some st, Some trips, Some routes =>
      let active_sids := active_service_ids_for_today cache today in
      let st2 := rows_of_stop st stop_id in
      if bool_decide (st2 = []) then Ok []
      else
        st2 ← add_dep_sec st2;
        let now_sec := _now_service_seconds now in
        let upcoming := select_upcoming now_sec st2 in
        if bool_decide (upcoming = []) then Ok []
        else
          let upcoming := merge_trips upcoming trips in
          let upcoming :=
            filter_active active_sids (trips_has_service_id trips) upcoming in
          let upcoming := merge_routes upcoming routes in
          let upcoming := sort_values upcoming in
          Ok (dedup_loop limit ∅ [] upcoming)
  | _, _, _ => Ok []
  end.

(** [today] and [now] are the two clock reads of one query. *)
Definition next_scheduled_arrivals_for_stop (cache : Cache) (today : date)
    (now : datetime) (stop_id : pystr) (limit : Z) : result (list pystr) :=
  rows ← arrival_rows cache today now stop_id limit;
  Ok (fmap (M := list) (format_row (_now_service_seconds now)) rows).

(** ** Alert query *)

Definition _route_ids_for_short_name (cache : Cache) (short_name : option pystr)
    : option (gset pystr) :=
  match short_name, routes cache with
  | Some short_name, Some routes =>
      if bool_decide (short_name = []) || bool_decide (routes = []) then None
      else
        let sn := lower (strip short_name) in
        if bool_decide (sn = []) then None
        else
          let matched :=
            filter (fun r => lower (strip (astype_str (route_short_name r))) = sn)
                   routes in
          let matched :=
            if bool_decide (matched = [])
            then filter (fun r => lower (astype_str (route_id r)) = sn) routes
            else matched in
          if bool_decide (matched = []) then Some ∅
          else Some (list_to_set ((fun r => astype_str (route_id r)) <$> matched))
  | _, _ => None
  end.

(** The loop of [_alert_applies_to_routes] over the informed entities. *)
Fixpoint informed_loop (ents : list EntitySelector) (allowed : gset pystr) : bool :=
  match ents with
  | [] => false
  | ent :: rest =>
      let rid := strip (es_route_id ent) in
      if bool_decide (rid <> []) && bool_decide (rid ∈ allowed) then true
      else informed_loop rest allowed
  end.

Definition _alert_applies_to_routes (a : Alert)
    (allowed_route_ids : option (gset pystr)) : bool :=
  match allowed_route_ids with
  | None => true
  | Some allowed => informed_loop (informed_entity a) allowed
  end.

(** [ts.translation[0].text.strip()], read only where the list of
    translations is not empty. *)
Definition translation0 (ts : TranslatedString) : pystr :=
  strip (text (hd {| text := []; language := [] |} (translation ts))).

(** Lines 292-296: the text taken from one alert. *)
Definition alert_txt (a : Alert) : pystr :=
  if bool_decide (translation (header_text a) <> []) then
    translation0 (header_text a)
  else if bool_decide (translation (description_text a) <> []) then
    translation0 (description_text a)
  else [].

(** One iteration of the loop over [cache.alerts.entity]. *)
Definition alert_step (allowed_route_ids : option (gset pystr))
    (msgs : list pystr) (ent : FeedEntity) : list pystr :=
  match alert ent with
  | None => msgs
  | Some a =>
      if negb (_alert_applies_to_routes a allowed_route_ids) then msgs
      else
        let txt := alert_txt a in
        if bool_decide (txt <> []) then msgs ++ [txt] else msgs
  end.

Definition ellipsis : N := 8230.

Definition get_alert_text (cache : Cache) (route_filter : option pystr)
    (max_len : Z) : pystr :=
  match alerts cache with
  | None => py "No alerts"
  | Some feed =>
      let allowed_route_ids := _route_ids_for_short_name cache route_filter in
      let msgs := foldl (alert_step allowed_route_ids) [] (entity feed) in
      if bool_decide (msgs = []) then py "No alerts"
      else
        let out := join (py " | ") msgs in
        slice_to out max_len ++ (if len out >? max_len then [ellipsis] else [])
  end.

(** ** Display endpoint *)

Record Response := { title : pystr; lines : list pystr; ticker : pystr }.

(** What one request reads from outside the process: the network, and
    the clock at each of its four reads. *)
Record Env := {
  net : Network;
  time_gtfs : Z;       (* time.time() in ensure_gtfs_loaded *)
  time_rt : Z;         (* time.time() in ensure_rt_loaded *)
  today : date;        (* datetime.now(PACIFIC).date() *)
  now : datetime       (* datetime.now(PACIFIC) in _now_service_seconds *)
}.

(** [while len(arrivals) < 3: arrivals.append("--")]; three rounds are
    enough for any list. *)
Fixpoint pad_loop (rounds : nat) (arrivals : list pystr) : list pystr :=
  match rounds with
  | O => arrivals
  | S rounds' =>
      if len arrivals <? 3 then pad_loop rounds' (arrivals ++ [py "--"])
      else arrivals
  end.

(** [l[i]] *)
Definition item (l : list pystr) (i : nat) : result pystr :=
  match l !! i with
  | Some x => Ok x
  | None => Raise IndexError
  end.

Definition display (env : Env) (stop_id : pystr) (title : pystr)
    (route : option pystr) : M Response :=
  ensure_gtfs_loaded (time_gtfs env) (net env) ;;;
  ensure_rt_loaded (time_rt env) (net env) ;;;
  fun cache =>
    liftM
      (arrivals ← next_scheduled_arrivals_for_stop cache (today env) (now env)
                    stop_id 3;
       let arrivals := pad_loop 3 arrivals in
       a0 ← item arrivals 0; a1 ← item arrivals 1; a2 ← item arrivals 2;
       Ok {| title := title;
             lines := [title; a0; a1; a2];
             ticker := get_alert_text cache route 160 |})
      cache.

(** ** The display client ([pico_w.py])

    The client asks the display endpoint for its lines and its ticker,
    turns lines 1 and 2 into board lines and scrolls the ticker on row 3
    of a 20x4 character display behind an I2C expander.  It runs under
    MicroPython, whose [str.strip], [str.split] and [int] agree with the
    functions above on text whose only whitespace is the ASCII one and
    whose digits are the ASCII ones; the properties below are stated on
    such text. *)

(** [s[a:b]] for any two integers: a negative index counts from the end,
    and both are cut to the length. *)
Definition clamp_index (n i : Z) : Z :=
  if i <? 0 then Z.max 0 (n + i) else Z.min i n.

Definition slice {A} (s : list A) (a b : Z) : list A :=
  let a := clamp_index (len s) a in
  let b := clamp_index (len s) b in
  take (Z.to_nat (b - a)) (drop (Z.to_nat a) s).

(** [" " * n] *)
Definition spaces (n : Z) : pystr := replicate (Z.to_nat n) 32%N.

(** The text is [None] for Python's [None]. *)
Definition pad_right (s : option pystr) (width : Z) : pystr :=
  let s := match s with None => [] | Some s => s end in
  slice_to s width ++ spaces (Z.max 0 (width - len s)).

(** [s.split()]: the maximal runs of non-whitespace; [cur] is the run
    being read. *)
Fixpoint split_whitespace (cur : pystr) (s : pystr) : list pystr :=
  match s with
  | [] => if bool_decide (cur = []) then [] else [cur]
  | c :: s' =>
      if isspace c then
        if bool_decide (cur = []) then split_whitespace [] s'
        else cur :: split_whitespace [] s'
      else split_whitespace (cur ++ [c]) s'
  end.

(** The line is [None] for Python's [None]; the result [(None, None)] is
    the pair of two [None]. *)
Definition parse_route_mins (line : option pystr) : option pystr * option Z :=
  match line with
  | None => (None, None)
  | Some line =>
      if bool_decide (line = []) || bool_decide (line = py "--")
      then (None, None)
      else
        let parts := split_whitespace [] (strip line) in
        if len parts <? 2 then (None, None)
        else
          match parts with
          | route :: p1 :: _ =>
              match int p1 with
              | Ok mins => (Some route, Some mins)
              | Raise _ => (None, None)
              end
          | _ => (None, None)
          end
  end.


(** *** The ticker

    The generator [marquee_frames], by the loop it is in: in the first it
    yields the same frame for ever, in the second it is about to yield
    [loop[i:i+width]], where [n] is [len(s)]. *)
Inductive marquee :=
  | Fixed (frame : pystr)
  | Scroll (loop : pystr) (n width i : Z).

Definition marquee_frames (text : option pystr) (width : Z) (pad : pystr)
    : marquee :=
  let base := match text with None => py "No alerts" | Some t => t end in
  let s := base ++ pad in
  if len s <=? width then Fixed (pad_right (Some s) width)
  else Scroll (s ++ slice_to s width) (len s) width 0.

(** [next(g)]: the frame and the generator after it; [None] where the
    generator spins without ever yielding ([range(len(s))] is empty). *)
Definition next (g : marquee) : option (pystr * marquee) :=
  match g with
  | Fixed frame => Some (frame, g)
  | Scroll loop n width i =>
      if n <=? 0 then None
      else Some (slice loop i (i + width),
                 Scroll loop n width (if i + 1 <? n then i + 1 else 0))
  end.

(** *** The display behind its I2C expander

    What a function that drives the display has done is the list of the
    bytes it wrote on the bus, in order, with the way it ended; the pauses
    between the writes are left out, and the bus takes every byte. *)

Definition MASK_RS : Z := 0x01.
Definition MASK_E : Z := 0x04.
Definition MASK_BL : Z := 0x08.

Definition io : Type := list Z * result unit.

Definition and_then (a b : io) : io :=
  match a with
  | (written, Ok _) => (written ++ fst b, snd b)
  | (written, Raise e) => (written, Raise e)
  end.

(** [i2c.writeto(ADDR, bytes([b]))]: [bytes] takes values of one byte. *)
Definition i2c_write (b : Z) : io :=
  if (0 <=? b) && (b <? 256) then ([b], Ok tt) else ([], Raise ValueError).

Definition pulse_enable (data : Z) : io :=
  and_then (i2c_write (Z.lor data MASK_E))
           (i2c_write (Z.land data (Z.lnot MASK_E))).

(** [rs] is tested for truth: any integer but 0 sets the bit. *)
Definition write4 (nibble : Z) (rs : Z) (backlight : bool) : io :=
  let data := Z.shiftl (Z.land nibble 0x0F) 4 in
  let data := if negb (rs =? 0) then Z.lor data MASK_RS else data in
  let data := if backlight then Z.lor data MASK_BL else data in
  and_then (i2c_write data) (pulse_enable data).

Definition send (value : Z) (rs : Z) : io :=
  and_then (write4 (Z.land (Z.shiftr value 4) 0x0F) rs true)
           (write4 (Z.land value 0x0F) rs true).

Definition cmd (c : Z) : io := send c 0.

(** [ch(c)] for the character of code point [c]. *)
Definition ch (c : N) : io := send (Z.of_N c) 1.

Definition clear : io := cmd 0x01.

Definition ROW_OFFSETS : list Z := [0x00; 0x40; 0x14; 0x54].

Definition set_cursor (col row : Z) : io :=
  let col := Z.max 0 (Z.min 19 col) in
  let row := Z.max 0 (Z.min 3 row) in
  match ROW_OFFSETS !! Z.to_nat row with
  | Some offset => cmd (Z.lor 0x80 (offset + col))
  | None => ([], Raise IndexError)
  end.

Fixpoint putstr (s : pystr) : io :=
  match s with
  | [] => ([], Ok tt)
  | c :: s' => and_then (ch c) (putstr s')
  end.

Definition init_lcd : io :=
  and_then (write4 0x03 0 true)
    (and_then (write4 0x03 0 true)
       (and_then (write4 0x03 0 true)
          (and_then (write4 0x02 0 true)
             (and_then (cmd 0x28)
                (and_then (cmd 0x0C) (and_then (cmd 0x06) clear)))))).

Definition write_row (row : Z) (text : option pystr) : io :=
  and_then (set_cursor 0 row) (putstr (pad_right text 20)).

(** ** Notions used to state the properties *)

Definition dep_le (a b : Row) : Prop := dep_sec a <= dep_sec b.
Definition dep_lt (a b : Row) : Prop := dep_sec a < dep_sec b.

(** Following the specification (4.5, step 6): deduplicate by exact
    [dep_sec], the first occurrence winning; [seen] holds the values
    already taken. *)
Fixpoint first_occurrences (seen : gset Z) (upcoming : list Row) : list Row :=
  match upcoming with
  | [] => []
  | r :: rest =>
      if bool_decide (dep_sec r ∈ seen) then first_occurrences seen rest
      else r :: first_occurrences (seen ∪ {[dep_sec r]}) rest
  end.

(** Lines 199-224 of the query on the rows of step 3: both merges, the
    active-service filter between them, and the sort. *)
Definition ranked (cache : Cache) (today : date) (trs : Trips)
    (rts : list Route) (upcoming : list DepRow) : list Row :=
  sort_values
    (merge_routes
       (filter_active (active_service_ids_for_today cache today)
          (trips_has_service_id trs) (merge_trips upcoming trs))
       rts).

(** A calendar rule whose date range contains [today] and whose flag for
    the weekday of [today] is set. *)
Definition rule_in_force (today : date) (r : CalendarRule) : Prop :=
  to_numeric_fillna0 (start_date r) <= yyyymmdd today
    <= to_numeric_fillna0 (end_date r)
  /\ to_numeric_fillna0 (flag r (_weekday_col today)) = 1.

(** A calendar exception dated [today]. *)
Definition dated (today : date) (e : CalendarDate) : Prop :=
  to_numeric_fillna0 (cd_date e) = yyyymmdd today.

(** An exception of type added (1), of type removed (2), on a service. *)
Definition adds (sid : pystr) (e : CalendarDate) : Prop :=
  astype_str (cd_service_id e) = sid
  /\ to_numeric_fillna0 (exception_type e) = 1.

Definition removes (sid : pystr) (e : CalendarDate) : Prop :=
  astype_str (cd_service_id e) = sid
  /\ to_numeric_fillna0 (exception_type e) = 2.

Definition calendar_rules (cache : Cache) : list CalendarRule :=
  match calendar cache with
  | Some cal => calendar_rows cal
  | None => []
  end.

Definition calendar_exceptions (cache : Cache) : list CalendarDate :=
  match calendar_dates cache with
  | Some cald => cald
  | None => []
  end.

#[global] Instance rule_in_force_dec today r : Decision (rule_in_force today r).
Proof. unfold rule_in_force. apply _. Defined.

#[global] Instance dated_dec today e : Decision (dated today e).
Proof. unfold dated. apply _. Defined.

(** The texts of the alerts of a feed that pass the route filter, in feed
    order, without the empty ones. *)
Definition kept_texts (allowed_route_ids : option (gset pystr))
    (ents : list FeedEntity) : list pystr :=
  filter (fun txt => txt <> [])
    (alert_txt <$>
       filter (fun a => _alert_applies_to_routes a allowed_route_ids = true)
         (omap alert ents)).

(** Following the specification (4.6, step 4): the first non-empty
    translation of the header text if the header is present, else the
    first non-empty translation of the description text. *)
Definition first_non_empty (ts : TranslatedString) : pystr :=
  default []
    (head (filter (fun s => s <> [])
             ((fun t => strip (text t)) <$> translation ts))).

Definition spec_alert_txt (a : Alert) : pystr :=
  if bool_decide (translation (header_text a) <> [])
  then first_non_empty (header_text a)
  else first_non_empty (description_text a).

(** A line of the form "<route_label> <integer_minutes>". *)
Definition is_arrival_line (s : pystr) : Prop :=
  exists label mins, 0 <= mins /\ s = label ++ py " " ++ str_int mins.

(** An ASCII digit, an ASCII letter, and the value of a run of ASCII
    digits read from the most significant one, starting from [acc]. *)
Definition is_digit (c : N) : Prop := (48 <= c <= 57)%N.

Definition is_letter (c : N) : Prop :=
  (65 <= c <= 90)%N \/ (97 <= c <= 122)%N.

Definition digits_value (acc : Z) (ds : pystr) : Z :=
  foldl (fun acc c => 10 * acc + Z.of_N (c - 48)) acc ds.

#[global] Instance is_digit_dec c : Decision (is_digit c).
Proof. unfold is_digit. apply _. Defined.

#[global] Instance is_letter_dec c : Decision (is_letter c).
Proof. unfold is_letter. apply _. Defined.

(** The value of a decimal numeral, starting from [acc]. *)
Fixpoint uint_value (acc : Z) (d : Decimal.uint) : Z :=
  match d with
  | Decimal.Nil => acc
  | Decimal.D0 d => uint_value (10 * acc + 0) d
  | Decimal.D1 d => uint_value (10 * acc + 1) d
  | Decimal.D2 d => uint_value (10 * acc + 2) d
  | Decimal.D3 d => uint_value (10 * acc + 3) d
  | Decimal.D4 d => uint_value (10 * acc + 4) d
  | Decimal.D5 d => uint_value (10 * acc + 5) d
  | Decimal.D6 d => uint_value (10 * acc + 6) d
  | Decimal.D7 d => uint_value (10 * acc + 7) d
  | Decimal.D8 d => uint_value (10 * acc + 8) d
  | Decimal.D9 d => uint_value (10 * acc + 9) d
  end.

(** A calendar rule whose date range contains [today], whatever its
    weekday flags. *)
Definition in_date_range (today : date) (r : CalendarRule) : Prop :=
  to_numeric_fillna0 (start_date r) <= yyyymmdd today
    <= to_numeric_fillna0 (end_date r).

#[global] Instance in_date_range_dec today r : Decision (in_date_range today r).
Proof. unfold in_date_range. apply _. Defined.

(** The frame that the [k]-th call of [next] returns, counting from 0. *)
Fixpoint nth_frame (k : nat) (g : marquee) : option pystr :=
  match next g with
  | None => None
  | Some (frame, g') =>
      match k with
      | O => Some frame
      | S k' => nth_frame k' g'
      end
  end.

(** The byte that carries a nibble to the display: the nibble in the high
    half, the backlight bit, and the register-select bit. *)
Definition nibble_byte (nibble rs : Z) : Z :=
  16 * (nibble mod 16) + 8 + (if rs =? 0 then 0 else 1).

(** Text of ASCII characters only; on such text [lower] is [str.lower]. *)
Definition is_ascii (s : pystr) : Prop := Forall (fun c => (c < 128)%N) s.

(** A route whose short name and identifier are ASCII text. *)
Definition ascii_route (r : Route) : Prop :=
  is_ascii (astype_str (route_short_name r))
  /\ is_ascii (astype_str (route_id r)).

#[global] Instance is_ascii_dec s : Decision (is_ascii s).
Proof. unfold is_ascii. apply _. Defined.

#[global] Instance ascii_route_dec r : Decision (ascii_route r).
Proof. unfold ascii_route. apply _. Defined.

(** ** Sample data

    A small schedule and alert feed on which the functions above are run
    in the examples below: stop 1111 of the Gold line on Tuesday
    2026-11-03 at 08:00:00, with departures in 3, 9 (twice) and 70
    minutes. *)

Definition cell_of (s : string) : cell := Some (py s).

Definition stop_time_of (trip stop arr : string) (dep : cell) : StopTime :=
  {| st_trip_id := cell_of trip; st_stop_id := cell_of stop;
     arrival_time := cell_of arr; departure_time := dep |}.

Definition sample_stop_times : list StopTime :=
  [ stop_time_of "t3" "1111" "09:10:00" (cell_of "09:10:00");
    stop_time_of "t1" "1111" "08:03:00" None;
    stop_time_of "t2" "1111" "08:09:00" (cell_of "08:09:30");
    stop_time_of "t2" "1111" "08:09:00" (cell_of "08:09:30");
    stop_time_of "t9" "2222" "08:01:00" (cell_of "08:01:00");
    stop_time_of "t4" "1111" "07:30:00" (cell_of "07:30:00") ].

Definition trip_of (trip route service : string) : Trip :=
  {| trip_id := cell_of trip; trip_route_id := cell_of route;
     trip_service_id := cell_of service |}.

Definition sample_trips : Trips :=
  {| trips_has_service_id := true;
     trips_rows := [ trip_of "t1" "507" "WKD"; trip_of "t2" "507" "WKD";
                     trip_of "t3" "507" "WKD"; trip_of "t4" "507" "WKD";
                     trip_of "t9" "BLUE" "WKD" ] |}.

Definition sample_routes : list Route :=
  [ {| route_id := cell_of "507"; route_short_name := cell_of "Gold";
       route_long_name := cell_of "Gold Line" |};
    {| route_id := cell_of "BLUE"; route_short_name := cell_of "Blue";
       route_long_name := cell_of "Blue Line" |} ].

Definition every_day (w : Weekday) : bool := true.

Definition weekdays_only (w : Weekday) : numcell :=
  match w with
  | saturday | sunday => Some 0
  | _ => Some 1
  end.

Definition sample_calendar : Calendar :=
  {| calendar_has_column := every_day;
     calendar_rows :=
       [ {| service_id := cell_of "WKD"; start_date := Some 20260101;
            end_date := Some 20261231; flag := weekdays_only |};
         {| service_id := cell_of "OLD"; start_date := Some 20250101;
            end_date := Some 20251231; flag := weekdays_only |};
         {| service_id := cell_of "XTR"; start_date := Some 20260901;
            end_date := Some 20261231; flag := weekdays_only |} ] |}.

Definition sample_calendar_dates : list CalendarDate :=
  [ {| cd_service_id := cell_of "HOL"; cd_date := Some 20261103;
       exception_type := Some 1 |};
    {| cd_service_id := cell_of "XTR"; cd_date := Some 20261103;
       exception_type := Some 2 |};
    {| cd_service_id := cell_of "WKD"; cd_date := Some 20261126;
       exception_type := Some 2 |} ].

Definition sample_today : date := {| year := 2026; month := 11; day := 3 |}.

Definition sample_now : datetime :=
  {| dt_date := sample_today; hour := 8; minute := 0; second := 0 |}.

(** The same day at 03:00:00, more than four hours before the first
    departure. *)
Definition sample_early : datetime :=
  {| dt_date := sample_today; hour := 3; minute := 0; second := 0 |}.

Definition alert_of (rid : string) (header description : list string)
    : FeedEntity :=
  let translated l :=
    {| translation := (fun s => {| text := py s; language := py "en" |}) <$> l |} in
  {| entity_id := py "e";
     alert := Some {| informed_entity := [ {| es_route_id := py rid |} ];
                      header_text := translated header;
                      description_text := translated description |} |}.

Definition sample_feed : FeedMessage :=
  {| entity := [ alert_of "507" [" Gold delay "] [];
                 alert_of "20" [] ["Bus 20 detour"];
                 {| entity_id := py "tu"; alert := None |};
                 alert_of "" ["Elevator out"] ["Use the ramp"] ] |}.

Definition sample_cache : Cache :=
  {| gtfs_loaded_at := 1000; stops := Some [];
     stop_times := Some sample_stop_times; trips := Some sample_trips;
     routes := Some sample_routes; calendar := Some sample_calendar;
     calendar_dates := Some sample_calendar_dates;
     rt_loaded_at := 1000; trip_updates := Some {| entity := [] |};
     alerts := Some sample_feed |}.

Definition sample_archive : Archive :=
  {| stops_txt := Table []; stop_times_txt := Table sample_stop_times;
     trips_txt := Table sample_trips; routes_txt := Table sample_routes;
     calendar_txt := Table sample_calendar;
     calendar_dates_txt := Table sample_calendar_dates |}.

Definition sample_net : Network := fun u =>
  match u with
  | GTFS_ZIP_URL => Ok (ZipOf sample_archive)
  | GTFSRT_TRIPS_URL => Ok (MessageOf {| entity := [] |})
  | GTFSRT_ALERTS_URL => Ok (MessageOf sample_feed)
  end.

Definition sample_env : Env :=
  {| net := sample_net; time_gtfs := 1005; time_rt := 1005;
     today := sample_today; now := sample_now |}.

(** The rows of stop 1111 with their departure in seconds. *)
Definition sample_dep_rows : list DepRow :=
  Eval vm_compute in
    match add_dep_sec (rows_of_stop sample_stop_times (py "1111")) with
    | Ok rows => rows
    | Raise _ => []
    end.

(** An archive whose stop_times.txt is no table (an empty file, say). *)
Definition new_stops : list Stop :=
  [ {| stop_id := cell_of "1111"; stop_name := cell_of "39th St" |} ].

Definition broken_archive : Archive :=
  {| stops_txt := Table new_stops; stop_times_txt := Malformed;
     trips_txt := Table sample_trips; routes_txt := Table sample_routes;
     calendar_txt := Table sample_calendar;
     calendar_dates_txt := Table sample_calendar_dates |}.

Definition broken_net : Network := fun u =>
  match u with
  | GTFS_ZIP_URL => Ok (ZipOf broken_archive)
  | u => sample_net u
  end.

(** An alert whose first header translation is blank. *)
Definition blank_first_feed : FeedMessage :=
  {| entity := [ alert_of "507" [" "; "Retraso en la linea"] ["Delay"] ] |}.



(** An alert that names no route. *)
Definition stationwide_alert : Alert :=
  {| informed_entity := [ {| es_route_id := py "" |} ];
     header_text :=
       {| translation := [ {| text := py "Elevator out";
                              language := py "en" |} ] |};
     description_text := {| translation := [] |} |}.

(** Networks that fail: every download, the alerts message only, and an
    archive that lacks stops.txt. *)
Definition down_net : Network := fun _ => Raise HTTPError.

Definition half_broken_net : Network := fun u =>
  match u with
  | GTFSRT_ALERTS_URL => Ok Garbage
  | u => sample_net u
  end.

Definition archive_without_stops : Archive :=
  {| stops_txt := Absent; stop_times_txt := Table sample_stop_times;
     trips_txt := Table sample_trips; routes_txt := Table sample_routes;
     calendar_txt := Table sample_calendar;
     calendar_dates_txt := Table sample_calendar_dates |}.

Definition net_without_stops : Network := fun u =>
  match u with
  | GTFS_ZIP_URL => Ok (ZipOf archive_without_stops)
  | u => sample_net u
  end.

(** * Properties *)

(** ** Sorting and deduplication *)

Section Sorting.

Lemma insert_row_perm r l : insert_row r l ≡ₚ r :: l.
Proof.
  induction l as [|x l IH]; simpl; [done|].
  case_match; [done|]. rewrite IH. apply Permutation_swap.
Qed.

Lemma sort_values_perm l : sort_values l ≡ₚ l.
Proof.
  induction l as [|x l IH]; simpl; [done|].
  rewrite insert_row_perm. by f_equiv.
Qed.

Lemma insert_row_sorted r l :
  StronglySorted dep_le l -> StronglySorted dep_le (insert_row r l).
Proof.
  induction 1 as [|x l Hs IH Hx]; simpl.
  - repeat constructor.
  - destruct (dep_sec r <=? dep_sec x) eqn:E.
    + apply Z.leb_le in E. constructor; [by constructor|].
      constructor; [exact E|].
      eapply Forall_impl; [exact Hx|]. unfold dep_le. intros; simpl in *; lia.
    + apply Z.leb_gt in E. constructor; [done|].
      rewrite insert_row_perm. constructor; [unfold dep_le; lia|done].
Qed.

Lemma sort_values_sorted l : StronglySorted dep_le (sort_values l).
Proof.
  induction l as [|x l IH]; simpl; [constructor|].
  by apply insert_row_sorted.
Qed.

Lemma sort_values_nil l : sort_values l = [] -> l = [].
Proof.
  intros H. apply Permutation_nil_r. rewrite <- H. symmetry.
  apply sort_values_perm.
Qed.

End Sorting.

Section Dedup.

Lemma first_occurrences_elem seen up x :
  x ∈ first_occurrences seen up -> x ∈ up /\ (dep_sec x ∉ seen).
Proof.
  revert seen. induction up as [|r rest IH]; intros seen; simpl.
  - intros Hx. by apply elem_of_nil in Hx.
  - case_bool_decide as Hin.
    + intros Hx. apply IH in Hx as [? ?]. split; [by right|done].
    + intros Hx. apply elem_of_cons in Hx as [->|Hx].
      * split; [by left|done].
      * apply IH in Hx as [? ?]. split; [by right|set_solver].
Qed.

(** On a list sorted by [dep_sec] the first occurrences are strictly
    increasing. *)
Lemma first_occurrences_sorted seen up :
  StronglySorted dep_le up -> StronglySorted dep_lt (first_occurrences seen up).
Proof.
  intros Hs. revert seen.
  induction Hs as [|r rest Hs IH Hr]; intros seen; simpl.
  - constructor.
  - case_bool_decide; [apply IH|].
    constructor; [apply IH|].
    apply Forall_forall. intros x Hx.
    apply first_occurrences_elem in Hx as [Hx Hns].
    rewrite Forall_forall in Hr. specialize (Hr x Hx).
    unfold dep_le, dep_lt in *.
    assert (dep_sec x <> dep_sec r) by set_solver. lia.
Qed.

(** A row is kept exactly when its [dep_sec] is new and no earlier row
    of the list carries the same value. *)
Lemma first_occurrences_first seen up x :
  x ∈ first_occurrences seen up <->
  exists pre post, up = pre ++ x :: post /\ (dep_sec x ∉ seen)
                   /\ Forall (fun y => dep_sec y ≠ dep_sec x) pre.
Proof.
  revert seen. induction up as [|r rest IH]; intros seen; simpl.
  - split; [intros Hx; by apply elem_of_nil in Hx|].
    intros (pre & post & E & _). by destruct pre.
  - case_bool_decide as Hin.
    + rewrite IH. split.
      * intros (pre & post & -> & Hn & Hf).
        exists (r :: pre), post. split_and!; [done|done|].
        constructor; [|done]. intros E. rewrite E in Hin. done.
      * intros (pre & post & E & Hn & Hf). destruct pre as [|p pre].
        { simpl in E. simplify_eq. done. }
        simpl in E. simplify_eq.
        exists pre, post. split_and!; [done|done|]. by inversion Hf.
    + rewrite elem_of_cons, IH. split.
      * intros [->|(pre & post & -> & Hn & Hf)].
        { exists [], rest. split_and!; [done|done|constructor]. }
        exists (r :: pre), post. split_and!; [done|set_solver|].
        constructor; [set_solver|done].
      * intros (pre & post & E & Hn & Hf). destruct pre as [|p pre].
        { simpl in E. simplify_eq. by left. }
        simpl in E. simplify_eq. right.
        exists pre, post. inversion Hf; subst.
        split_and!; [done|set_solver|done].
Qed.

(** The loop is the first occurrences cut after [max 1 limit] rows:
    the test on [limit] is made only after a row has been appended. *)
Lemma dedup_loop_spec limit up : forall seen rows,
  len rows < Z.max 1 limit ->
  dedup_loop limit seen rows up
  = rows ++ take (Z.to_nat (Z.max 1 limit - len rows))
              (first_occurrences seen up).
Proof.
  induction up as [|r rest IH]; intros seen rows Hlen; simpl.
  - by rewrite take_nil, app_nil_r.
  - case_bool_decide as Hin; [by apply IH|].
    assert (Hl : len (rows ++ [r]) = len rows + 1).
    { unfold len. rewrite length_app. simpl. lia. }
    destruct (len (rows ++ [r]) >=? limit) eqn:E.
    + apply Z.geb_le in E.
      replace (Z.to_nat (Z.max 1 limit - len rows)) with 1%nat
        by (unfold len in *; lia).
      simpl. by rewrite take_0.
    + rewrite Z.geb_leb in E. apply Z.leb_gt in E.
      rewrite IH by lia. rewrite Hl.
      replace (Z.to_nat (Z.max 1 limit - len rows))
        with (S (Z.to_nat (Z.max 1 limit - (len rows + 1))))
        by (unfold len in *; lia).
      simpl. by rewrite <- app_assoc.
Qed.

Lemma dedup_loop_take limit up :
  dedup_loop limit ∅ [] up
  = take (Z.to_nat (Z.max 1 limit)) (first_occurrences ∅ up).
Proof.
  rewrite dedup_loop_spec by (unfold len; simpl; lia).
  simpl. f_equal. unfold len. simpl. f_equal. lia.
Qed.

Lemma dedup_loop_nonempty limit up :
  up <> [] -> dedup_loop limit ∅ [] up <> [].
Proof.
  destruct up as [|r rest]; [done|]. intros _. rewrite dedup_loop_take.
  simpl. rewrite bool_decide_eq_false_2 by set_solver.
  replace (Z.to_nat (Z.max 1 limit))
    with (S (Z.to_nat (Z.max 1 limit - 1))) by lia.
  done.
Qed.

End Dedup.

(** ** The arrival query *)

Section Pipeline.

Lemma elem_of_merge_left {L R O} (kl : L -> cell) (kr : R -> cell)
    (mk : L -> option R -> O) (left : list L) (right : list R) (o : O) :
  o ∈ merge_left kl kr mk left right ->
  exists l r, l ∈ left /\ o = mk l r.
Proof.
  unfold merge_left. intros Ho. apply list_elem_of_bind in Ho as (l & Ho & Hl).
  exists l. destruct (filter _ right) as [|m ms] eqn:E.
  - apply list_elem_of_singleton in Ho. eauto.
  - apply list_elem_of_fmap in Ho as (r & -> & _). eauto.
Qed.

Lemma merge_left_nonempty {L R O} (kl : L -> cell) (kr : R -> cell)
    (mk : L -> option R -> O) (left : list L) (right : list R) :
  left <> [] -> merge_left kl kr mk left right <> [].
Proof.
  destruct left as [|l left]; [done|]. intros _. unfold merge_left. simpl.
  destruct (filter _ right); simpl; done.
Qed.

Lemma filter_active_subseteq active has up :
  filter_active active has up ⊆ up.
Proof.
  unfold filter_active. destruct (_ && _); [|done].
  case_bool_decide; [|done]. intros x Hx.
  by apply list_elem_of_filter in Hx as [_ ?].
Qed.

Lemma filter_active_nonempty active has up :
  up <> [] -> filter_active active has up <> [].
Proof.
  intros Hne. unfold filter_active. destruct (_ && _); [|done].
  by case_bool_decide.
Qed.

Lemma select_upcoming_ahead now_sec st2 r :
  r ∈ select_upcoming now_sec st2 -> r ∈ st2 /\ now_sec <= d_dep_sec r.
Proof.
  unfold select_upcoming. case_bool_decide; intros Hr;
    apply list_elem_of_filter in Hr; split; try tauto; lia.
Qed.

Lemma arrival_rows_unfold cache today now stop_id limit st trs rts st2 :
  stop_times cache = Some st -> trips cache = Some trs ->
  routes cache = Some rts ->
  add_dep_sec (rows_of_stop st stop_id) = Ok st2 ->
  arrival_rows cache today now stop_id limit =
  Ok (let upcoming := select_upcoming (_now_service_seconds now) st2 in
      if bool_decide (upcoming = []) then []
      else dedup_loop limit ∅ [] (ranked cache today trs rts upcoming)).
Proof.
  intros Hst Htr Hrt Hdep. unfold arrival_rows. rewrite Hst, Htr, Hrt.
  case_bool_decide as Hempty.
  - rewrite Hempty in Hdep. simpl in Hdep. injection Hdep as <-.
    reflexivity.
  - rewrite Hdep. cbn. by case_bool_decide.
Qed.

Lemma ranked_source cache today trs rts upcoming r :
  r ∈ ranked cache today trs rts upcoming ->
  exists x, x ∈ upcoming /\ d_dep_sec x = dep_sec r.
Proof.
  unfold ranked. rewrite sort_values_perm. intros Hr.
  apply elem_of_merge_left in Hr as (t & ro & Ht & ->).
  apply filter_active_subseteq in Ht.
  apply elem_of_merge_left in Ht as (x & tr & Hx & ->).
  exists x. done.
Qed.

Lemma ranked_nonempty cache today trs rts upcoming :
  upcoming <> [] -> ranked cache today trs rts upcoming <> [].
Proof.
  intros Hne Hnil. apply sort_values_nil in Hnil. revert Hnil.
  apply merge_left_nonempty, filter_active_nonempty, merge_left_nonempty, Hne.
Qed.

Lemma format_row_minutes now_sec r :
  now_sec <= dep_sec r ->
  exists mins, mins = (dep_sec r - now_sec) / 60 /\ 0 <= mins
    /\ mins = Z.max 0 ((dep_sec r - now_sec) / 60)
    /\ format_row now_sec r = route_name r ++ py " " ++ str_int mins.
Proof.
  intros H. exists ((dep_sec r - now_sec) / 60).
  assert (0 <= (dep_sec r - now_sec) / 60) by (apply Z.div_pos; lia).
  split_and!; [done|done|lia|]. unfold format_row. simpl.
  by rewrite Z.max_r.
Qed.

Lemma next_scheduled_of_rows cache today now stop_id limit rows :
  arrival_rows cache today now stop_id limit = Ok rows ->
  next_scheduled_arrivals_for_stop cache today now stop_id limit
  = Ok (format_row (_now_service_seconds now) <$> rows).
Proof. intros H. unfold next_scheduled_arrivals_for_stop. by rewrite H. Qed.

Lemma ranked_nil cache today trs rts : ranked cache today trs rts [] = [].
Proof.
  unfold ranked, merge_trips, merge_left. simpl.
  unfold filter_active. destruct (_ && _); reflexivity.
Qed.

(** The arrival query in one statement, for any [limit]: the rows it
    emits are the first occurrences (by [dep_sec]) of the ranked rows, cut
    after [max 1 limit] of them; they are strictly increasing in
    [dep_sec], and each is printed with its clamped minutes. *)
Lemma arrivals_sorted_distinct_capped cache today now stop_id limit st trs rts st2 :
  stop_times cache = Some st -> trips cache = Some trs ->
  routes cache = Some rts ->
  add_dep_sec (rows_of_stop st stop_id) = Ok st2 ->
  let now_sec := _now_service_seconds now in
  exists rows,
    arrival_rows cache today now stop_id limit = Ok rows
    /\ next_scheduled_arrivals_for_stop cache today now stop_id limit
       = Ok (format_row now_sec <$> rows)
    /\ rows = take (Z.to_nat (Z.max 1 limit))
                (first_occurrences ∅
                   (ranked cache today trs rts (select_upcoming now_sec st2)))
    /\ StronglySorted dep_lt rows
    /\ len rows <= Z.max 1 limit
    /\ Forall (fun r => exists mins,
                 mins = Z.max 0 ((dep_sec r - now_sec) / 60) /\ 0 <= mins
                 /\ format_row now_sec r = route_name r ++ py " " ++ str_int mins)
         rows.
Proof.
  intros Hst Htr Hrt Hdep now_sec.
  pose proof (arrival_rows_unfold cache today now stop_id limit _ _ _ _
                Hst Htr Hrt Hdep) as Hrows.
  cbv zeta in Hrows. fold now_sec in Hrows.
  set (up := select_upcoming now_sec st2) in *.
  assert (Heq : (if bool_decide (up = []) then []
                 else dedup_loop limit ∅ [] (ranked cache today trs rts up))
                = take (Z.to_nat (Z.max 1 limit))
                    (first_occurrences ∅ (ranked cache today trs rts up))).
  { case_bool_decide as Hup.
    - rewrite Hup, ranked_nil. simpl. by rewrite take_nil.
    - apply dedup_loop_take. }
  rewrite Heq in Hrows. clear Heq.
  eexists. split; [exact Hrows|]. split; [by apply next_scheduled_of_rows|].
  split; [done|]. split_and!.
  - eapply StronglySorted_app_1_l. rewrite take_drop.
    apply first_occurrences_sorted, sort_values_sorted.
  - unfold len. rewrite length_take. lia.
  - apply Forall_forall. intros r Hr.
    apply subseteq_take in Hr.
    apply first_occurrences_elem in Hr as [Hr _].
    apply ranked_source in Hr as (x & Hx & Hxr).
    apply select_upcoming_ahead in Hx as [_ Hx].
    destruct (format_row_minutes now_sec r) as (mins & ? & ? & ? & ?); [lia|].
    exists mins. done.
Qed.

(** For a limit of at least one the result has at most [limit] entries. *)
Lemma arrivals_within_positive_limit cache today now stop_id limit st trs rts st2 :
  1 <= limit ->
  stop_times cache = Some st -> trips cache = Some trs ->
  routes cache = Some rts ->
  add_dep_sec (rows_of_stop st stop_id) = Ok st2 ->
  exists arrivals,
    next_scheduled_arrivals_for_stop cache today now stop_id limit = Ok arrivals
    /\ len arrivals <= limit.
Proof.
  intros Hlimit Hst Htr Hrt Hdep.
  destruct (arrivals_sorted_distinct_capped cache today now stop_id limit
              _ _ _ _ Hst Htr Hrt Hdep)
    as (rows & _ & Hout & _ & _ & Hlen & _).
  eexists. split; [exact Hout|].
  unfold len in *. rewrite length_fmap. lia.
Qed.

Lemma filter_nil_impl {A} (P Q : A -> Prop) `{!forall x, Decision (P x)}
    `{!forall x, Decision (Q x)} (l : list A) :
  (forall x, P x -> Q x) -> filter Q l = [] -> filter P l = [].
Proof.
  intros HPQ HQ. destruct (filter P l) as [|x k] eqn:E; [done|].
  assert (Hx : x ∈ filter P l) by (rewrite E; by left).
  apply list_elem_of_filter in Hx as [HP Hl].
  assert (Hq : x ∈ filter Q l) by (apply list_elem_of_filter; auto).
  rewrite HQ in Hq. by apply elem_of_nil in Hq.
Qed.

End Pipeline.

(** C2, at the input where it fails. The claim bounds the result by
    [limit]; the loop tests [len(rows) >= limit] only after it has
    appended a row, so a query with [limit = 0] at a stop with a departure
    ahead returns one arrival, not none. (For [limit >= 1] the bound, the
    ascending order, the deduplication and the clamped minutes all hold:
    [arrivals_sorted_distinct_capped].) *)
Theorem limit_zero_yields_an_arrival :
  exists arrivals,
    next_scheduled_arrivals_for_stop sample_cache sample_today sample_now
      (py "1111") 0 = Ok arrivals
    /\ arrivals = [py "Gold 3"]
    /\ ~ (len arrivals <= 0).
Proof.
  eexists. split; [vm_compute; reflexivity|]. split; [reflexivity|].
  unfold len. simpl. lia.
Qed.

(** C3. The arrival query keeps exactly the rows of the stop whose
    [dep_sec] lies in [now_sec, now_sec + 4h]; if there is none it falls
    back to all rows with [dep_sec >= now_sec]; if there is none either it
    returns the empty list.  The result of the query is what the rest of
    the query makes of exactly these kept rows: it is empty only if no row
    is ahead, every row it emits comes from the kept rows, so that a
    [dep_sec] before [now_sec] is never included, lies within the window
    when the window is not empty, and beyond it after a fallback. *)
Theorem upcoming_window cache today now stop_id limit st trs rts st2 :
  stop_times cache = Some st -> trips cache = Some trs ->
  routes cache = Some rts ->
  add_dep_sec (rows_of_stop st stop_id) = Ok st2 ->
  let now_sec := _now_service_seconds now in
  let horizon := now_sec + 4 * 3600 in
  let in_window :=
    filter (fun r => now_sec <= d_dep_sec r <= horizon) st2 in
  let ahead := filter (fun r => now_sec <= d_dep_sec r) st2 in
  let kept := if bool_decide (in_window = []) then ahead else in_window in
  select_upcoming now_sec st2 = kept
  /\ exists rows,
       arrival_rows cache today now stop_id limit = Ok rows
       /\ next_scheduled_arrivals_for_stop cache today now stop_id limit
          = Ok (format_row now_sec <$> rows)
       /\ rows = dedup_loop limit ∅ [] (ranked cache today trs rts kept)
       /\ (rows = [] <-> ahead = [])
       /\ (forall r, r ∈ rows ->
             now_sec <= dep_sec r
             /\ exists x, x ∈ kept /\ d_dep_sec x = dep_sec r)
       /\ (in_window <> [] -> forall r, r ∈ rows -> dep_sec r <= horizon)
       /\ (in_window = [] -> forall r, r ∈ rows -> horizon < dep_sec r).
Proof.
  intros Hst Htr Hrt Hdep now_sec horizon in_window ahead kept.
  assert (Hw : filter (fun r => d_dep_sec r >= now_sec /\ d_dep_sec r <= horizon) st2
               = in_window).
  { apply list_filter_iff. intros x. lia. }
  assert (Ha : filter (fun r => d_dep_sec r >= now_sec) st2 = ahead).
  { apply list_filter_iff. intros x. lia. }
  assert (Hup : select_upcoming now_sec st2 = kept).
  { unfold select_upcoming. cbv zeta. fold horizon. by rewrite Hw, Ha. }
  assert (Hkept : kept = [] <-> ahead = []).
  { unfold kept. case_bool_decide as He; [done|]. split; [done|].
    intros Hae. exfalso. apply He. revert Hae. apply filter_nil_impl.
    intros x. lia. }
  split; [exact Hup|].
  pose proof (arrival_rows_unfold cache today now stop_id limit _ _ _ _
                Hst Htr Hrt Hdep) as Hrows.
  cbv zeta in Hrows. fold now_sec in Hrows. rewrite Hup in Hrows.
  assert (Hres : arrival_rows cache today now stop_id limit
                 = Ok (dedup_loop limit ∅ [] (ranked cache today trs rts kept))).
  { rewrite Hrows. case_bool_decide as He; [|done].
    rewrite He, ranked_nil. reflexivity. }
  exists (dedup_loop limit ∅ [] (ranked cache today trs rts kept)).
  assert (Hsrc : forall r,
            r ∈ dedup_loop limit ∅ [] (ranked cache today trs rts kept) ->
            exists x, x ∈ kept /\ d_dep_sec x = dep_sec r).
  { intros r Hr. rewrite dedup_loop_take in Hr. apply subseteq_take in Hr.
    apply first_occurrences_elem in Hr as [Hr _].
    by apply ranked_source in Hr. }
  split_and!; [done|by apply next_scheduled_of_rows|done| | | |].
  - split.
    + intros Hnil. apply Hkept. destruct (decide (kept = [])) as [|Hne]; [done|].
      exfalso. revert Hnil. apply dedup_loop_nonempty.
      by apply ranked_nonempty.
    + intros Hae. apply Hkept in Hae. rewrite Hae, ranked_nil. reflexivity.
  - intros r Hr. destruct (Hsrc r Hr) as (x & Hx & E). split; [|by eauto].
    rewrite <- Hup in Hx. apply select_upcoming_ahead in Hx as [_ Hx]. lia.
  - intros Hne r Hr. destruct (Hsrc r Hr) as (x & Hx & E).
    unfold kept in Hx. rewrite bool_decide_eq_false_2 in Hx by done.
    apply list_elem_of_filter in Hx as [Hx _]. lia.
  - intros He r Hr. destruct (Hsrc r Hr) as (x & Hx & E).
    unfold kept in Hx. rewrite bool_decide_eq_true_2 in Hx by done.
    apply list_elem_of_filter in Hx as [Hx Hin].
    destruct (decide (d_dep_sec x <= horizon)) as [Hle|Hgt]; [|lia].
    assert (Hxw : x ∈ in_window)
      by (apply list_elem_of_filter; split; [lia|done]).
    rewrite He in Hxw. by apply elem_of_nil in Hxw.
Qed.

Lemma upcoming_window_witness :
  next_scheduled_arrivals_for_stop sample_cache sample_today sample_early
    (py "1111") 3
  = Ok [py "Gold 270"; py "Gold 303"; py "Gold 309"]
  /\ exists rows,
       arrival_rows sample_cache sample_today sample_early (py "1111") 3
       = Ok rows
       /\ rows <> []
       /\ forall r, r ∈ rows -> 3 * 3600 + 4 * 3600 < dep_sec r.
Proof.
  destruct (upcoming_window sample_cache sample_today sample_early (py "1111") 3
              sample_stop_times sample_trips sample_routes sample_dep_rows
              eq_refl eq_refl eq_refl eq_refl)
    as (_ & rows & Hrows & Hout & Heq & Hnil & _ & _ & Hfar).
  split.
  - rewrite Hout, Heq. vm_compute. reflexivity.
  - exists rows. split; [exact Hrows|]. split.
    + intros E. apply Hnil in E. vm_compute in E. discriminate.
    + apply Hfar. vm_compute. reflexivity.
Defined.

(** C5. In the arrival query the active-service filter is applied only
    when the active set is not empty and at least one candidate row
    survives it; with an empty active set, or when no row would survive,
    the unfiltered rows are kept, so the kept rows are never empty. (The
    filter is applied under these two conditions when trips.txt has a
    [service_id] column.) *)
Theorem service_filter_guard cache today now stop_id limit st trs rts st2 :
  stop_times cache = Some st -> trips cache = Some trs ->
  routes cache = Some rts ->
  add_dep_sec (rows_of_stop st stop_id) = Ok st2 ->
  select_upcoming (_now_service_seconds now) st2 <> [] ->
  let active := active_service_ids_for_today cache today in
  let joined := merge_trips (select_upcoming (_now_service_seconds now) st2) trs in
  let filtered := filter (fun r => astype_str (t_service_id r) ∈ active) joined in
  exists kept,
    arrival_rows cache today now stop_id limit
    = Ok (dedup_loop limit ∅ [] (sort_values (merge_routes kept rts)))
    /\ (active = ∅ -> kept = joined)
    /\ (filtered = [] -> kept = joined)
    /\ (kept <> joined -> active <> ∅ /\ filtered <> [] /\ kept = filtered)
    /\ (active <> ∅ -> trips_has_service_id trs = true -> filtered <> [] ->
        kept = filtered)
    /\ kept <> [].
Proof.
  intros Hst Htr Hrt Hdep Hne active joined filtered.
  exists (filter_active active (trips_has_service_id trs) joined).
  split.
  { rewrite (arrival_rows_unfold cache today now stop_id limit _ _ _ _
               Hst Htr Hrt Hdep).
    cbv zeta. by rewrite bool_decide_eq_false_2. }
  assert (Hj : joined <> []) by (by apply merge_left_nonempty).
  unfold filter_active. fold filtered.
  destruct (decide (active = ∅)) as [Ha|Ha].
  - rewrite (bool_decide_eq_false_2 _ (fun H => H Ha)). simpl.
    split_and!; done.
  - rewrite (bool_decide_eq_true_2 _ Ha). simpl.
    destruct (trips_has_service_id trs); simpl.
    + destruct (decide (filtered = [])) as [Hf|Hf].
      * rewrite (bool_decide_eq_false_2 _ (fun H => H Hf)). split_and!; done.
      * rewrite (bool_decide_eq_true_2 _ Hf). split_and!; done.
    + split_and!; done.
Qed.

Lemma service_filter_guard_witness :
  exists kept,
    arrival_rows sample_cache sample_today sample_now (py "1111") 3
    = Ok (dedup_loop 3 ∅ [] (sort_values (merge_routes kept sample_routes)))
    /\ kept <> [].
Proof.
  destruct (service_filter_guard sample_cache sample_today sample_now
              (py "1111") 3 sample_stop_times sample_trips sample_routes
              sample_dep_rows eq_refl eq_refl eq_refl eq_refl)
    as (kept & Hrows & _ & _ & _ & _ & Hne).
  - vm_compute. discriminate.
  - exists kept. split; [exact Hrows|exact Hne].
Defined.

(** C10. If one of the stop_times, trips or routes tables is absent the
    arrival query returns the empty list and does not raise. If the
    calendar and calendar_dates tables are absent, the active set is
    empty and the query answers as it does without the service filter: a
    non-empty list whenever a departure of the stop is ahead. *)
Theorem missing_tables cache today now stop_id limit :
  (stop_times cache = None \/ trips cache = None \/ routes cache = None ->
   next_scheduled_arrivals_for_stop cache today now stop_id limit = Ok [])
  /\ (calendar cache = None -> calendar_dates cache = None ->
      active_service_ids_for_today cache today = ∅
      /\ forall st trs rts st2,
           stop_times cache = Some st -> trips cache = Some trs ->
           routes cache = Some rts ->
           add_dep_sec (rows_of_stop st stop_id) = Ok st2 ->
           let upcoming := select_upcoming (_now_service_seconds now) st2 in
           exists rows,
             next_scheduled_arrivals_for_stop cache today now stop_id limit
             = Ok (format_row (_now_service_seconds now) <$> rows)
             /\ rows = (if bool_decide (upcoming = []) then []
                        else dedup_loop limit ∅ []
                               (sort_values
                                  (merge_routes (merge_trips upcoming trs) rts)))
             /\ (upcoming <> [] -> rows <> [])).
Proof.
  split.
  - intros H. unfold next_scheduled_arrivals_for_stop, arrival_rows.
    destruct (stop_times cache), (trips cache), (routes cache);
      try reflexivity; naive_solver.
  - intros Hc Hd.
    assert (Hact : active_service_ids_for_today cache today = ∅).
    { unfold active_service_ids_for_today. by rewrite Hc, Hd. }
    split; [done|].
    intros st trs rts st2 Hst Htr Hrt Hdep upcoming.
    pose proof (arrival_rows_unfold cache today now stop_id limit _ _ _ _
                  Hst Htr Hrt Hdep) as Hrows.
    cbv zeta in Hrows. fold upcoming in Hrows.
    unfold ranked in Hrows. rewrite Hact in Hrows.
    unfold filter_active in Hrows.
    rewrite (bool_decide_eq_false_2 (∅ <> ∅)) in Hrows by (intros H; by apply H).
    simpl in Hrows.
    eexists. split; [by apply next_scheduled_of_rows|]. split; [done|].
    intros Hne. rewrite bool_decide_eq_false_2 by done.
    apply dedup_loop_nonempty. intros Hnil. apply sort_values_nil in Hnil.
    revert Hnil. by apply merge_left_nonempty, merge_left_nonempty.
Qed.

Lemma missing_tables_witness :
  next_scheduled_arrivals_for_stop (set_trips None sample_cache) sample_today
    sample_now (py "1111") 3 = Ok []
  /\ active_service_ids_for_today
       (set_calendar None (set_calendar_dates None sample_cache)) sample_today
     = ∅.
Proof.
  split.
  - apply (proj1 (missing_tables (set_trips None sample_cache) sample_today
                    sample_now (py "1111") 3)).
    right; left; reflexivity.
  - apply (proj2 (missing_tables
                    (set_calendar None (set_calendar_dates None sample_cache))
                    sample_today sample_now (py "1111") 3));
      reflexivity.
Defined.

(** ** The service calendar *)

Section Calendar.

Lemma apply_exception_elem sid A e :
  sid ∈ apply_exception A e <->
  adds sid e \/ (sid ∈ A /\ ~ removes sid e).
Proof.
  unfold apply_exception, adds, removes.
  destruct (Z.eqb_spec (to_numeric_fillna0 (exception_type e)) 1) as [E1|E1].
  - rewrite E1. set_solver.
  - destruct (Z.eqb_spec (to_numeric_fillna0 (exception_type e)) 2) as [E2|E2].
    + rewrite E2. rewrite elem_of_difference, elem_of_singleton.
      split; [intros [? ?]; right; split; [done|]; intros [? _]; congruence|].
      intros [[_ ?]|[? Hn]]; [done|]. split; [done|]. intros ->. by apply Hn.
    + split; [intros ?; right; split; [done|]; by intros [_ ?]|].
      intros [[_ ?]|[? _]]; done.
Qed.

Lemma foldl_apply_exception_elem sid A l :
  sid ∈ foldl apply_exception A l <->
  (exists pre e post, l = pre ++ e :: post /\ adds sid e
                      /\ Forall (fun x => ~ removes sid x) post)
  \/ (sid ∈ A /\ Forall (fun x => ~ removes sid x) l).
Proof.
  induction l as [|e l IH] using rev_ind.
  - simpl. split; [intros ?; right; by split|].
    intros [(pre & e & post & E & _)|[? _]]; [by destruct pre|done].
  - rewrite foldl_app. simpl. rewrite apply_exception_elem, IH. split.
    + intros [Ha|[[(pre & e' & post & -> & Ha & Hf)|[HA Hf]] Hn]].
      * left. exists l, e, []. split_and!; [done|done|constructor].
      * left. exists pre, e', (post ++ [e]).
        split_and!; [by rewrite <- app_assoc|done|].
        apply Forall_app. split; [done|by constructor].
      * right. split; [done|]. apply Forall_app. split; [done|by constructor].
    + intros [(pre & e' & post & E & Ha & Hf)|[HA Hf]].
      * destruct post as [|p post _] using rev_ind.
        { apply app_inj_tail in E as [-> ->]. by left. }
        rewrite app_comm_cons, app_assoc in E.
        apply app_inj_tail in E as [-> ->].
        apply Forall_app in Hf as [Hf Hp]. rewrite Forall_singleton in Hp.
        right. split; [|exact Hp]. left. by exists pre, e', post.
      * apply Forall_app in Hf as [Hf Hp]. rewrite Forall_singleton in Hp.
        right. split; [|exact Hp]. right. done.
Qed.


End Calendar.



(** ** The alert query *)

Section Alerts.

Lemma alert_step_foldl allowed ents : forall msgs,
  foldl (alert_step allowed) msgs ents = msgs ++ kept_texts allowed ents.
Proof.
  unfold kept_texts.
  induction ents as [|ent ents IH]; intros msgs; simpl.
  - by rewrite app_nil_r.
  - rewrite IH. unfold alert_step.
    destruct (alert ent) as [a|]; simpl; [|done].
    rewrite filter_cons.
    destruct (_alert_applies_to_routes a allowed) eqn:Happ; simpl; [|done].
    rewrite filter_cons.
    case_bool_decide as Htxt.
    + rewrite decide_True by done. by rewrite <- app_assoc.
    + rewrite decide_False by (by intros ?). done.
Qed.

Lemma elem_of_kept_texts allowed ents m :
  m ∈ kept_texts allowed ents <->
  m <> [] /\ exists ent a, ent ∈ ents /\ alert ent = Some a
               /\ _alert_applies_to_routes a allowed = true
               /\ alert_txt a = m.
Proof.
  unfold kept_texts. rewrite list_elem_of_filter, list_elem_of_fmap.
  split.
  - intros (Hm & a & -> & Ha). split; [done|].
    apply list_elem_of_filter in Ha as [Happ Ha].
    apply list_elem_of_omap in Ha as (ent & Hent & Hal). eauto 10.
  - intros (Hm & ent & a & Hent & Hal & Happ & <-). split; [done|].
    exists a. split; [done|]. apply list_elem_of_filter. split; [done|].
    apply list_elem_of_omap. eauto.
Qed.

Lemma informed_loop_empty ents : informed_loop ents ∅ = false.
Proof.
  induction ents as [|ent ents IH]; simpl; [done|].
  rewrite (bool_decide_eq_false_2 (_ ∈ ∅)) by set_solver.
  by rewrite andb_false_r.
Qed.

Lemma kept_texts_empty_set ents : kept_texts (Some ∅) ents = [].
Proof.
  unfold kept_texts.
  assert (H : filter (fun a => _alert_applies_to_routes a (Some ∅) = true)
                (omap alert ents) = []).
  { induction (omap alert ents) as [|a l IH]; [done|].
    rewrite filter_cons, decide_False; [done|].
    simpl. by rewrite informed_loop_empty. }
  by rewrite H.
Qed.

Lemma get_alert_text_unfold cache route_filter max_len feed :
  alerts cache = Some feed ->
  get_alert_text cache route_filter max_len =
  let msgs := kept_texts (_route_ids_for_short_name cache route_filter)
                (entity feed) in
  if bool_decide (msgs = []) then py "No alerts"
  else
    let out := join (py " | ") msgs in
    slice_to out max_len ++ (if len out >? max_len then [ellipsis] else []).
Proof.
  intros H. unfold get_alert_text. rewrite H. cbv zeta.
  by rewrite alert_step_foldl.
Qed.

Lemma lower_nil_inv s : lower s = [] -> s = [].
Proof. by destruct s. Qed.

End Alerts.

Section Slices.

Lemma slice_to_nonneg (s : pystr) n :
  0 <= n -> slice_to s n = take (Z.to_nat n) s.
Proof. intros H. unfold slice_to. by rewrite (proj2 (Z.leb_le 0 n) H). Qed.

End Slices.

Section Guards.

Lemma strip_nil_lower s : lower (strip s) = [] <-> strip s = [].
Proof. split; [apply lower_nil_inv|by intros ->]. Qed.

(** Where the filter is not resolved. *)
Lemma route_ids_unresolved cache f :
  routes cache = None \/ routes cache = Some [] \/ strip f = [] ->
  _route_ids_for_short_name cache (Some f) = None.
Proof.
  unfold _route_ids_for_short_name.
  intros [->|[->|Hf]]; [done|by rewrite orb_true_r|].
  destruct (routes cache) as [rts|]; [|done].
  destruct (_ || _); [done|]. cbv zeta.
  by rewrite Hf.
Qed.

End Guards.

(** C7, as amended. With a route table that is present and not empty and
    a filter that is not blank, on ASCII text (where [lower] is
    [str.lower]): the trimmed, lower-cased filter is matched against the
    trimmed, lower-cased short names; if no short name matches it is
    matched against the lower-cased route identifiers; if nothing matches
    either, the resolved set is empty, no alert applies to it, and the
    alert text is "No alerts".  With a route table that is absent or
    empty, or a blank filter, the filter is not resolved: every alert
    applies, and the alert text is the one of no filter. *)
Theorem route_filter_resolution cache route_filter :
  let resolved := _route_ids_for_short_name cache (Some route_filter) in
  let sn := lower (strip route_filter) in
  let ids (l : list Route) : gset pystr :=
    list_to_set ((fun r => astype_str (route_id r)) <$> l) in
  (routes cache = None \/ routes cache = Some [] \/ strip route_filter = [] ->
   resolved = None
   /\ (forall a, _alert_applies_to_routes a resolved = true)
   /\ forall max_len,
        get_alert_text cache (Some route_filter) max_len
        = get_alert_text cache None max_len)
  /\ (forall rts,
        routes cache = Some rts -> rts <> [] -> strip route_filter <> [] ->
        is_ascii route_filter -> Forall ascii_route rts ->
        let by_name :=
          filter (fun r => lower (strip (astype_str (route_short_name r))) = sn)
                 rts in
        let by_id := filter (fun r => lower (astype_str (route_id r)) = sn) rts in
        (by_name <> [] -> resolved = Some (ids by_name))
        /\ (by_name = [] -> resolved = Some (ids by_id))
        /\ (by_name = [] -> by_id = [] ->
            resolved = Some ∅
            /\ (forall a, _alert_applies_to_routes a resolved = false)
            /\ forall max_len,
                 get_alert_text cache (Some route_filter) max_len
                 = py "No alerts")).
Proof.
  intros resolved sn ids. split.
  - intros Hguard.
    assert (Hres : resolved = None) by (by apply route_ids_unresolved).
    split_and!; [done|by rewrite Hres|].
    intros max_len. unfold get_alert_text. fold resolved. rewrite Hres.
    reflexivity.
  - intros rts Hrts Hne Hstrip _ _ by_name by_id.
    assert (Hsn : sn <> []) by (unfold sn; by rewrite strip_nil_lower).
    assert (Hf : route_filter <> []) by (by intros ->).
    assert (Hres : resolved =
              let matched := if bool_decide (by_name = []) then by_id else by_name in
              if bool_decide (matched = []) then Some ∅ else Some (ids matched)).
    { unfold resolved, _route_ids_for_short_name. rewrite Hrts.
      rewrite (bool_decide_eq_false_2 _ Hf), (bool_decide_eq_false_2 _ Hne).
      simpl. fold sn. rewrite (bool_decide_eq_false_2 _ Hsn). reflexivity. }
    cbv zeta in Hres. split_and!.
    + intros Hn. rewrite Hres. rewrite !(bool_decide_eq_false_2 _ Hn).
      reflexivity.
    + intros Hn. rewrite Hres. clear Hres. rewrite (bool_decide_eq_true_2 _ Hn).
      case_bool_decide as Hid; [|reflexivity]. rewrite Hid. reflexivity.
    + intros Hn Hid.
      assert (Hempty : resolved = Some ∅).
      { rewrite Hres. rewrite (bool_decide_eq_true_2 _ Hn).
        by rewrite (bool_decide_eq_true_2 _ Hid). }
      split_and!; [done| |].
      * intros a. rewrite Hempty. simpl. apply informed_loop_empty.
      * intros max_len. destruct (alerts cache) as [feed|] eqn:Hal.
        -- rewrite (get_alert_text_unfold _ _ _ _ Hal). cbv zeta.
           fold resolved. rewrite Hempty, kept_texts_empty_set. done.
        -- unfold get_alert_text. by rewrite Hal.
Qed.

Lemma route_filter_resolution_witness :
  _route_ids_for_short_name sample_cache (Some (py " gold ")) = Some {[ py "507" ]}
  /\ _route_ids_for_short_name sample_cache (Some (py "blue")) = Some {[ py "BLUE" ]}
  /\ get_alert_text sample_cache (Some (py "NoSuchRoute")) 160 = py "No alerts"
  /\ get_alert_text sample_cache (Some (py "   ")) 160
     = get_alert_text sample_cache None 160
  /\ get_alert_text (set_routes (Some []) sample_cache) (Some (py "NoSuchRoute")) 160
     = get_alert_text (set_routes (Some []) sample_cache) None 160.
Proof.
  assert (Hascii : Forall ascii_route sample_routes)
    by (apply (bool_decide_eq_true_1 _); vm_compute; reflexivity).
  split_and!.
  - rewrite (proj1 (proj2 (route_filter_resolution sample_cache (py " gold "))
                      sample_routes eq_refl ltac:(discriminate)
                      ltac:(vm_compute; discriminate)
                      ltac:(apply (bool_decide_eq_true_1 _); vm_compute;
                            reflexivity)
                      Hascii))
      by (vm_compute; discriminate).
    vm_compute. reflexivity.
  - rewrite (proj1 (proj2 (route_filter_resolution sample_cache (py "blue"))
                      sample_routes eq_refl ltac:(discriminate)
                      ltac:(vm_compute; discriminate)
                      ltac:(apply (bool_decide_eq_true_1 _); vm_compute;
                            reflexivity)
                      Hascii))
      by (vm_compute; discriminate).
    vm_compute. reflexivity.
  - apply (proj2 (route_filter_resolution sample_cache (py "NoSuchRoute"))
             sample_routes eq_refl ltac:(discriminate)
             ltac:(vm_compute; discriminate)
             ltac:(apply (bool_decide_eq_true_1 _); vm_compute; reflexivity)
             Hascii);
      vm_compute; reflexivity.
  - apply (proj1 (route_filter_resolution sample_cache (py "   "))).
    right. right. vm_compute. reflexivity.
  - apply (proj1 (route_filter_resolution
                    (set_routes (Some []) sample_cache) (py "NoSuchRoute"))).
    right. left. reflexivity.
Defined.

(** C7, the claim as stated fails where the route table is absent: the
    filter matches no route, yet it is dropped rather than resolved to the
    empty set, and every alert is shown. *)
Lemma unmatched_filter_without_route_table :
  let cache := set_routes None sample_cache in
  routes cache = None
  /\ _route_ids_for_short_name cache (Some (py "NoSuchRoute")) = None
  /\ get_alert_text cache (Some (py "NoSuchRoute")) 160
     = py "Gold delay | Bus 20 detour | Elevator out"
  /\ get_alert_text cache (Some (py "NoSuchRoute")) 160 <> py "No alerts".
Proof. vm_compute. split_and!; try reflexivity. discriminate. Qed.

(** C8, as amended. The text of an alert is the stripped text of the
    first translation of its header if the header has a translation, else
    that of the first translation of its description, else empty; the
    messages joined by the query are the non-empty texts of the alerts
    that pass the route filter, in feed order. *)
Theorem alert_text_selection :
  (forall a,
     alert_txt a =
     match translation (header_text a) with
     | t :: _ => strip (text t)
     | [] =>
         match translation (description_text a) with
         | t :: _ => strip (text t)
         | [] => []
         end
     end)
  /\ forall cache route_filter max_len feed,
       alerts cache = Some feed ->
       let allowed := _route_ids_for_short_name cache route_filter in
       let msgs := foldl (alert_step allowed) [] (entity feed) in
       msgs = kept_texts allowed (entity feed)
       /\ (forall m, m ∈ msgs <->
             m <> [] /\ exists ent a, ent ∈ entity feed /\ alert ent = Some a
                          /\ _alert_applies_to_routes a allowed = true
                          /\ alert_txt a = m)
       /\ get_alert_text cache route_filter max_len
          = if bool_decide (msgs = []) then py "No alerts"
            else slice_to (join (py " | ") msgs) max_len
                 ++ (if len (join (py " | ") msgs) >? max_len
                     then [ellipsis] else []).
Proof.
  split.
  - intros a. unfold alert_txt, translation0.
    destruct (translation (header_text a)) as [|t ts]; simpl; [|done].
    destruct (translation (description_text a)) as [|d ds]; simpl; done.
  - intros cache route_filter max_len feed Hal allowed msgs.
    assert (Hm : msgs = kept_texts allowed (entity feed)).
    { unfold msgs. by rewrite alert_step_foldl. }
    split_and!; [done| |].
    + intros m. rewrite Hm. apply elem_of_kept_texts.
    + unfold get_alert_text. rewrite Hal. reflexivity.
Qed.

Lemma alert_text_selection_witness :
  foldl (alert_step (_route_ids_for_short_name sample_cache None)) []
    (entity sample_feed)
  = [py "Gold delay"; py "Bus 20 detour"; py "Elevator out"]
  /\ get_alert_text sample_cache None 160
     = py "Gold delay | Bus 20 detour | Elevator out".
Proof.
  destruct (proj2 alert_text_selection sample_cache None 160 sample_feed eq_refl)
    as (Hm & _ & Htxt).
  split.
  - rewrite Hm. vm_compute. reflexivity.
  - rewrite Htxt. vm_compute. reflexivity.
Defined.

(** C8, the claim as stated fails where the first translation of the
    header is blank and a later one is not: the first non-empty
    translation is the later one, the code reads only the first and skips
    the alert. *)
Lemma blank_first_translation_is_not_skipped_over :
  exists a,
    alert <$> entity blank_first_feed = [Some a]
    /\ spec_alert_txt a = py "Retraso en la linea"
    /\ alert_txt a = []
    /\ get_alert_text (set_alerts (Some blank_first_feed) sample_cache) None 160
       = py "No alerts".
Proof. eexists. vm_compute. split_and!; reflexivity. Qed.

(** C9. For a budget [max_len >= 0]: the alert text is "No alerts" when
    no alert snapshot is loaded or when no kept alert yields text;
    otherwise the texts are joined with " | " and the result is the
    joined string itself when it is at most [max_len] long, and its first
    [max_len] characters followed by one ellipsis character when it is
    longer. *)
Theorem alert_text_truncation cache route_filter max_len :
  0 <= max_len ->
  (alerts cache = None ->
   get_alert_text cache route_filter max_len = py "No alerts")
  /\ forall feed,
       alerts cache = Some feed ->
       let msgs := kept_texts (_route_ids_for_short_name cache route_filter)
                     (entity feed) in
       let out := join (py " | ") msgs in
       let shown := get_alert_text cache route_filter max_len in
       (msgs = [] -> shown = py "No alerts")
       /\ (msgs <> [] -> len out <= max_len -> shown = out)
       /\ (msgs <> [] -> len out > max_len ->
           shown = take (Z.to_nat max_len) out ++ [ellipsis]
           /\ len shown = max_len + 1).
Proof.
  intros Hmax. split.
  - intros Hal. unfold get_alert_text. by rewrite Hal.
  - intros feed Hal msgs out shown.
    assert (Hs : shown = if bool_decide (msgs = []) then py "No alerts"
                         else slice_to out max_len
                              ++ (if len out >? max_len then [ellipsis] else [])).
    { unfold shown. by rewrite (get_alert_text_unfold _ _ _ _ Hal). }
    split_and!.
    + intros Hm. rewrite Hs. by rewrite bool_decide_eq_true_2.
    + intros Hm Hle. rewrite Hs. rewrite bool_decide_eq_false_2 by done.
      rewrite slice_to_nonneg by done.
      rewrite Z.gtb_ltb, (proj2 (Z.ltb_ge _ _) Hle).
      rewrite app_nil_r. apply take_ge. unfold len in Hle. lia.
    + intros Hm Hgt. rewrite Hs. rewrite bool_decide_eq_false_2 by done.
      rewrite slice_to_nonneg by done.
      assert (Hb : (len out >? max_len) = true) by (apply Z.gtb_lt; lia).
      rewrite Hb. split; [done|].
      unfold len in *. rewrite length_app, length_take. simpl. lia.
Qed.

Lemma alert_text_truncation_witness :
  get_alert_text sample_cache None 20 = py "Gold delay | Bus 20 " ++ [ellipsis]
  /\ get_alert_text sample_cache (Some (py "Gold")) 20 = py "Gold delay".
Proof.
  destruct (alert_text_truncation sample_cache None 20 ltac:(lia)) as [_ H1].
  destruct (alert_text_truncation sample_cache (Some (py "Gold")) 20
              ltac:(lia)) as [_ H2].
  split.
  - destruct (H1 sample_feed eq_refl) as (_ & _ & Hcut).
    destruct Hcut as [-> _]; [vm_compute; discriminate|vm_compute; reflexivity|].
    vm_compute. reflexivity.
  - destruct (H2 sample_feed eq_refl) as (_ & Hkeep & _).
    rewrite Hkeep; [vm_compute; reflexivity|vm_compute; discriminate|].
    vm_compute. discriminate.
Defined.

(** ** Cache refresh *)

Section Refresh.

(** The realtime refresh replaces both messages and the stamp, or
    nothing at all. *)
Lemma ensure_rt_loaded_all_or_nothing now net cache cache' r :
  ensure_rt_loaded now net cache = (cache', r) ->
  match r with
  | Raise _ => cache' = cache
  | Ok _ =>
      cache' = cache
      \/ exists tu al,
           net GTFSRT_TRIPS_URL = Ok (MessageOf tu)
           /\ net GTFSRT_ALERTS_URL = Ok (MessageOf al)
           /\ cache' = set_rt_loaded_at now
                         (set_alerts (Some al)
                            (set_trip_updates (Some tu) cache))
  end.
Proof.
  unfold ensure_rt_loaded. destruct (_ && _).
  { intros [= <- <-]. by left. }
  unfold bindM, liftM, assign, fetch_bytes.
  destruct (net GTFSRT_TRIPS_URL) as [[|z1|tu]|e1];
    destruct (net GTFSRT_ALERTS_URL) as [[|z2|al]|e2]; simpl;
    intros [= <- <-]; try done.
  right. by exists tu, al.
Qed.

(** A failed download, or a body that is no archive, leaves the static
    tables as they were. *)
Lemma ensure_gtfs_loaded_fetch_failure now net cache :
  (exists e, net GTFS_ZIP_URL = Raise e)
  \/ (exists b, net GTFS_ZIP_URL = Ok b /\ forall z, b <> ZipOf z) ->
  exists r, ensure_gtfs_loaded now net cache = (cache, r).
Proof.
  intros H. unfold ensure_gtfs_loaded. destruct (_ && _); [by eexists|].
  unfold bindM, liftM, fetch_bytes.
  destruct H as [[e ->]|(b & -> & Hb)]; simpl; [by eexists|].
  destruct b as [|z|m]; simpl; try (by eexists). by destruct (Hb z).
Qed.

(** A member that does not parse stops the static refresh where it is:
    the table read before it is already assigned. *)
Lemma ensure_gtfs_loaded_partial now net cache z t :
  net GTFS_ZIP_URL = Ok (ZipOf z) ->
  stops_txt z = Table t -> stop_times_txt z = Malformed ->
  (bool_decide (stops cache <> None)
   && (now - gtfs_loaded_at cache <? GTFS_REFRESH_SECONDS)) = false ->
  ensure_gtfs_loaded now net cache
  = (set_stops (Some t) cache, Raise ParserError).
Proof.
  intros Hz Hs Hst Hstale. unfold ensure_gtfs_loaded, fetch_bytes.
  rewrite Hstale, Hz. unfold bindM, liftM, assign. simpl.
  by rewrite Hs, Hst.
Qed.

(** With six well-formed (or absent) members the static refresh
    replaces all six tables and the stamp. *)
Lemma ensure_gtfs_loaded_success now net cache z :
  net GTFS_ZIP_URL = Ok (ZipOf z) ->
  stops_txt z <> Malformed -> stop_times_txt z <> Malformed ->
  trips_txt z <> Malformed -> routes_txt z <> Malformed ->
  calendar_txt z <> Malformed -> calendar_dates_txt z <> Malformed ->
  (bool_decide (stops cache <> None)
   && (now - gtfs_loaded_at cache <? GTFS_REFRESH_SECONDS)) = false ->
  exists cache',
    ensure_gtfs_loaded now net cache = (cache', Ok tt)
    /\ gtfs_loaded_at cache' = now
    /\ read_csv (stops_txt z) = Ok (stops cache')
    /\ read_csv (stop_times_txt z) = Ok (stop_times cache')
    /\ read_csv (trips_txt z) = Ok (trips cache')
    /\ read_csv (routes_txt z) = Ok (routes cache')
    /\ read_csv (calendar_txt z) = Ok (calendar cache')
    /\ read_csv (calendar_dates_txt z) = Ok (calendar_dates cache').
Proof.
  intros Hz H1 H2 H3 H4 H5 H6 Hstale. unfold ensure_gtfs_loaded.
  unfold fetch_bytes. rewrite Hstale, Hz. unfold bindM, liftM, assign. simpl.
  destruct (stops_txt z), (stop_times_txt z), (trips_txt z), (routes_txt z),
    (calendar_txt z), (calendar_dates_txt z); try done;
    simpl; eexists; split_and!; reflexivity.
Qed.

End Refresh.

(** C6, at the input where it fails. The claim leaves the previous
    snapshot entirely in place when a refresh fails; the static refresh
    assigns each table as soon as it is read, so when stop_times.txt does
    not parse, the cache keeps the new stops next to the old stop times
    and the old stamp, and the failure propagates. (The realtime refresh
    is all or nothing, [ensure_rt_loaded_all_or_nothing], and a failed
    download changes nothing, [ensure_gtfs_loaded_fetch_failure].) *)
Theorem static_refresh_half_updated :
  let now := 1000 + GTFS_REFRESH_SECONDS in
  let half := set_stops (Some new_stops) sample_cache in
  ensure_gtfs_loaded now broken_net sample_cache = (half, Raise ParserError)
  /\ stops half <> stops sample_cache
  /\ stop_times half = stop_times sample_cache
  /\ gtfs_loaded_at half = gtfs_loaded_at sample_cache.
Proof. vm_compute. split_and!; try reflexivity. discriminate. Qed.

(** ** The display endpoint *)

Section Display.

Lemma pad_loop_spec (arrivals : list pystr) :
  (length arrivals <= 3)%nat ->
  pad_loop 3 arrivals
  = arrivals ++ replicate (3 - length arrivals) (py "--").
Proof.
  destruct arrivals as [|a [|b [|c [|d l]]]]; simpl; intros H;
    try reflexivity.
  lia.
Qed.

Lemma arrival_rows_inv cache today now stop_id limit rows :
  arrival_rows cache today now stop_id limit = Ok rows ->
  rows = []
  \/ exists st trs rts st2,
       stop_times cache = Some st /\ trips cache = Some trs
       /\ routes cache = Some rts
       /\ add_dep_sec (rows_of_stop st stop_id) = Ok st2.
Proof.
  unfold arrival_rows.
  destruct (stop_times cache) as [st|]; [|intros [= <-]; by left].
  destruct (trips cache) as [trs|]; [|intros [= <-]; by left].
  destruct (routes cache) as [rts|]; [|intros [= <-]; by left].
  case_bool_decide; [intros [= <-]; by left|].
  destruct (add_dep_sec (rows_of_stop st stop_id)) as [st2|e] eqn:E.
  - intros _. right. by exists st, trs, rts, st2.
  - simpl. done.
Qed.

Lemma next_scheduled_shape cache today now stop_id limit arrivals :
  next_scheduled_arrivals_for_stop cache today now stop_id limit = Ok arrivals ->
  len arrivals <= Z.max 1 limit /\ Forall is_arrival_line arrivals.
Proof.
  unfold next_scheduled_arrivals_for_stop.
  destruct (arrival_rows cache today now stop_id limit) as [rows|e] eqn:E;
    [|done].
  simpl. intros [= <-].
  destruct (arrival_rows_inv _ _ _ _ _ _ E)
    as [->|(st & trs & rts & st2 & Hst & Htr & Hrt & Hdep)].
  { split; [unfold len; simpl; lia|constructor]. }
  destruct (arrivals_sorted_distinct_capped cache today now stop_id limit
              _ _ _ _ Hst Htr Hrt Hdep)
    as (rows' & Hrows & _ & _ & _ & Hlen & Hfmt).
  rewrite E in Hrows. injection Hrows as <-.
  split.
  - unfold len in *. by rewrite length_fmap.
  - apply Forall_fmap. eapply Forall_impl; [exact Hfmt|].
    intros r (mins & _ & Hpos & Heq). simpl. rewrite Heq.
    by exists (route_name r), mins.
Qed.

(** The endpoint answers whenever both refreshes and the query do. *)
Lemma display_returns env stop_id title_ route cache c1 c2 arrivals :
  ensure_gtfs_loaded (time_gtfs env) (net env) cache = (c1, Ok tt) ->
  ensure_rt_loaded (time_rt env) (net env) c1 = (c2, Ok tt) ->
  next_scheduled_arrivals_for_stop c2 (today env) (now env) stop_id 3
  = Ok arrivals ->
  exists resp, display env stop_id title_ route cache = (c2, Ok resp).
Proof.
  intros H1 H2 H3. unfold display, bindM, liftM. rewrite H1, H2, H3.
  destruct (next_scheduled_shape _ _ _ _ _ _ H3) as [Hlen _].
  assert (Hl : (length arrivals <= 3)%nat) by (unfold len in Hlen; lia).
  cbn -[pad_loop item]. rewrite (pad_loop_spec _ Hl).
  destruct arrivals as [|a [|b [|c [|d l]]]]; simpl in *;
    try (by eexists); lia.
Qed.

End Display.

(** C1, as amended. Every response of the display endpoint has exactly
    four lines: the title, then the arrivals of the stop (at most three)
    padded with "--" up to three; so each of lines 1 to 3 is "--" or of
    the form "<route_label> <integer_minutes>" with minutes >= 0. *)
Theorem display_lines_shape env stop_id title_ route cache cache' resp :
  display env stop_id title_ route cache = (cache', Ok resp) ->
  title resp = title_
  /\ ticker resp = get_alert_text cache' route 160
  /\ length (lines resp) = 4%nat
  /\ lines resp !! 0%nat = Some title_
  /\ (forall i l, (1 <= i <= 3)%nat -> lines resp !! i = Some l ->
        l = py "--" \/ is_arrival_line l)
  /\ exists arrivals,
       next_scheduled_arrivals_for_stop cache' (today env) (now env) stop_id 3
       = Ok arrivals
       /\ (length arrivals <= 3)%nat
       /\ lines resp
          = title_ :: arrivals ++ replicate (3 - length arrivals) (py "--").
Proof.
  unfold display, bindM, liftM.
  destruct (ensure_gtfs_loaded _ _ cache) as [c1 [[]|e1]]; [|done].
  destruct (ensure_rt_loaded _ _ c1) as [c2 [[]|e2]]; [|done].
  destruct (next_scheduled_arrivals_for_stop c2 (today env) (now env) stop_id 3)
    as [arrivals|e3] eqn:Hq; [|done].
  destruct (next_scheduled_shape _ _ _ _ _ _ Hq) as [Hlen Hshape].
  assert (Hl : (length arrivals <= 3)%nat) by (unfold len in Hlen; lia).
  cbn -[pad_loop item]. rewrite (pad_loop_spec _ Hl).
  assert (Hpad : exists a0 a1 a2,
             arrivals ++ replicate (3 - length arrivals) (py "--") = [a0; a1; a2]).
  { destruct arrivals as [|a [|b [|c [|d l]]]]; simpl in *;
      try (by eauto); lia. }
  destruct Hpad as (a0 & a1 & a2 & Hpad). rewrite Hpad. simpl.
  intros [= <- <-]. simpl. split_and!; try done.
  - intros i l Hi Hlk.
    assert (Hin : l ∈ arrivals ++ replicate (3 - length arrivals) (py "--")).
    { rewrite Hpad. destruct i as [|[|[|[|i]]]]; simpl in Hlk; try lia;
        injection Hlk as <-; set_solver. }
    apply elem_of_app in Hin as [Hin|Hin].
    + right. rewrite Forall_forall in Hshape. by apply Hshape.
    + left. by apply elem_of_replicate in Hin as [-> _].
  - exists arrivals. split_and!; [by rewrite Hq|done|by rewrite Hpad].
Qed.

Lemma display_lines_shape_witness :
  exists cache' resp,
    display sample_env (py "2222") (py "39th St WB") None empty_cache
    = (cache', Ok resp)
    /\ lines resp = [py "39th St WB"; py "Blue 1"; py "--"; py "--"].
Proof.
  eexists _, _. split; [vm_compute; reflexivity|].
  match goal with
  | |- lines ?r = _ =>
      destruct (display_lines_shape sample_env (py "2222") (py "39th St WB")
                  None empty_cache _ r ltac:(vm_compute; reflexivity))
        as (_ & _ & _ & _ & _ & arrivals & Hq & _ & ->)
  end.
  vm_compute in Hq. injection Hq as <-. reflexivity.
Defined.

(** C1, the claim as stated fails on the number of lines: the response
    carries the title and three arrival slots. *)
Lemma display_has_four_lines :
  exists cache' resp,
    display sample_env (py "1111") (py "39th St WB") None sample_cache
    = (cache', Ok resp)
    /\ lines resp = [py "39th St WB"; py "Gold 3"; py "Gold 9"; py "Gold 70"]
    /\ length (lines resp) <> 3%nat.
Proof.
  eexists _, _. split; [vm_compute; reflexivity|].
  split; [vm_compute; reflexivity|]. vm_compute. discriminate.
Qed.

(** * Further properties

    Properties of the same functions beyond the ones above, and of the
    display client. *)

(** ** Text and numbers *)

Section Text.

Lemma py_cons a s : py (String a s) = N_of_ascii a :: py s.
Proof. reflexivity. Qed.

Lemma digit_is_digit c : is_digit c -> digit c = Some (Z.of_N (c - 48)).
Proof.
  unfold is_digit, digit. intros [H1 H2].
  by rewrite (proj2 (N.leb_le _ _) H1), (proj2 (N.leb_le _ _) H2).
Qed.

Lemma is_digit_not_space c : is_digit c -> isspace c = false.
Proof.
  unfold is_digit, isspace. intros [H1 H2].
  repeat match goal with
  | |- context [(?a <=? ?b)%N] => destruct (N.leb_spec a b)
  | |- context [(?a =? ?b)%N] => destruct (N.eqb_spec a b)
  end; simpl; try reflexivity; lia.
Qed.

Lemma digits_digits_value ds : forall acc b,
  Forall is_digit ds -> ds <> [] \/ b = true ->
  digits acc b ds = Ok (digits_value acc ds).
Proof.
  induction ds as [|c ds IH]; intros acc b Hd Hne; simpl.
  - destruct Hne as [?| ->]; done.
  - inversion Hd as [|? ? Hc Hds]; subst. rewrite (digit_is_digit _ Hc).
    apply IH; [done|by right].
Qed.

Lemma lstrip_id c s : isspace c = false -> lstrip (c :: s) = c :: s.
Proof. intros H. simpl. by rewrite H. Qed.

(** Text that neither starts nor ends with whitespace is its own strip. *)
Lemma strip_id c s z t :
  isspace c = false -> isspace z = false ->
  c :: s = t ++ [z] -> strip (c :: s) = c :: s.
Proof.
  intros Hc Hz E. unfold strip. rewrite (lstrip_id _ _ Hc).
  rewrite E, rev_unit, (lstrip_id _ _ Hz). simpl. by rewrite rev_involutive.
Qed.

Lemma strip_no_space s :
  Forall (fun c => isspace c = false) s -> strip s = s.
Proof.
  intros H. destruct s as [|c s]; [done|].
  destruct (exists_last (l := c :: s)) as (t & z & E); [done|].
  eapply strip_id; [by inversion H| |exact E].
  rewrite Forall_forall in H. apply H. rewrite E.
  apply elem_of_app. right. by left.
Qed.

End Text.

Section Decimal.

Lemma string_of_uint_digits d :
  Forall is_digit (py (NilEmpty.string_of_uint d))
  /\ forall acc, digits_value acc (py (NilEmpty.string_of_uint d))
                 = uint_value acc d.
Proof.
  induction d as [|d [IH1 IH2]|d [IH1 IH2]|d [IH1 IH2]|d [IH1 IH2]|d [IH1 IH2]
                  |d [IH1 IH2]|d [IH1 IH2]|d [IH1 IH2]|d [IH1 IH2]|d [IH1 IH2]];
    simpl.
  { split; [exact (Forall_nil_2 _)|done]. }
  all: rewrite py_cons; split;
    [apply Forall_cons; split; [unfold is_digit; simpl; lia|done]
    |intros acc; unfold digits_value; simpl; apply IH2].
Qed.

Lemma uint_value_pos d : forall p,
  uint_value (Zpos p) d = Zpos (Pos.of_uint_acc d p).
Proof.
  induction d; intros p; simpl; [done|..]; rewrite <- IHd; f_equal; lia.
Qed.

Lemma uint_value_0 d : uint_value 0 d = Z.of_N (Pos.of_uint d).
Proof.
  induction d; simpl; [done|done|..];
    match goal with
    | |- uint_value ?k _ = _ =>
        change k with (Zpos (Z.to_pos k)); rewrite uint_value_pos; reflexivity
    end.
Qed.

Lemma str_int_nonneg z :
  0 <= z ->
  str_int z <> [] /\ Forall is_digit (str_int z)
  /\ forall acc, acc = 0 -> digits_value acc (str_int z) = z.
Proof.
  intros Hz. unfold str_int. destruct z as [|p|p]; [| |lia].
  - simpl. split; [done|]. split; [repeat constructor; unfold is_digit; simpl; lia|].
    intros acc ->. reflexivity.
  - simpl. unfold NilZero.string_of_uint.
    pose proof (Unsigned.to_uint_nonnil p) as Hnn.
    destruct (string_of_uint_digits (Pos.to_uint p)) as [Hd Hv].
    destruct (Pos.to_uint p) eqn:E; [done|..];
      (split; [done|]); (split; [exact Hd|]);
      intros acc ->; rewrite Hv, uint_value_0, <- E, Unsigned.of_to; done.
Qed.

Lemma str_int_neg p : str_int (Zneg p) = 45%N :: str_int (Zpos p).
Proof. reflexivity. Qed.

(** [int(str(z)) == z] for every integer. *)
Lemma int_str_int z : int (str_int z) = Ok z.
Proof.
  assert (Hpos : forall z, 0 <= z -> int (str_int z) = Ok z
                   /\ digits 0 false (str_int z) = Ok z).
  { intros y Hy. destruct (str_int_nonneg y Hy) as (Hne & Hd & Hv).
    assert (Hdig : digits 0 false (str_int y) = Ok y).
    { rewrite digits_digits_value by auto. by rewrite Hv. }
    split; [|done]. unfold int. rewrite strip_no_space.
    2:{ eapply Forall_impl; [exact Hd|]. apply is_digit_not_space. }
    destruct (str_int y) as [|c ds] eqn:E; [done|].
    inversion Hd as [|? ? Hc _]; subst. unfold is_digit in Hc.
    destruct (decide (c = 45%N)) as [->|?]; [lia|].
    destruct (decide (c = 43%N)) as [->|?]; [lia|].
    destruct c as [|[p|p|]]; try done; destruct p as [p|p|]; try done;
      repeat (destruct p as [p|p|]; try done). }
  destruct z as [|p|p].
  - by apply Hpos.
  - by apply Hpos.
  - rewrite str_int_neg. unfold int.
    destruct (str_int_nonneg (Zpos p)) as (Hne & Hd & Hv); [lia|].
    rewrite strip_id with (z := default 0%N (last (str_int (Z.pos p))))
                          (t := 45%N :: removelast (str_int (Z.pos p))).
    + destruct (Hpos (Zpos p)) as [_ ->]; [lia|]. done.
    + done.
    + apply is_digit_not_space.
      destruct (exists_last Hne) as (t & x & E). rewrite E, last_snoc. simpl.
      rewrite E in Hd. apply Forall_app in Hd as [_ Hd]. by inversion Hd.
    + destruct (exists_last Hne) as (t & x & E). rewrite E, last_snoc. simpl.
      by rewrite removelast_last.
Qed.

Lemma str_int_no_space z : Forall (fun c => isspace c = false) (str_int z).
Proof.
  destruct z as [|p|p].
  - vm_compute. repeat constructor.
  - destruct (str_int_nonneg (Zpos p)) as (_ & Hd & _); [lia|].
    eapply Forall_impl; [exact Hd|]. apply is_digit_not_space.
  - rewrite str_int_neg. constructor; [reflexivity|].
    destruct (str_int_nonneg (Zpos p)) as (_ & Hd & _); [lia|].
    eapply Forall_impl; [exact Hd|]. apply is_digit_not_space.
Qed.

Lemma str_int_nonempty z : str_int z <> [].
Proof.
  destruct z as [|p|p]; [done| |by rewrite str_int_neg].
  by destruct (str_int_nonneg (Zpos p)) as (? & _); [lia|].
Qed.

End Decimal.

Section Split.

Lemma split_nonempty sep s : split sep s <> [].
Proof.
  destruct s as [|c s]; simpl; [done|].
  destruct (c =? sep)%N; [done|]. by destruct (split sep s).
Qed.

Lemma split_no_sep sep a : Forall (fun c => c <> sep) a -> split sep a = [a].
Proof.
  induction 1 as [|c a Hc Ha IH]; simpl; [done|].
  rewrite (proj2 (N.eqb_neq c sep) Hc), IH. done.
Qed.

Lemma split_app_sep sep a rest :
  Forall (fun c => c <> sep) a ->
  split sep (a ++ sep :: rest) = a :: split sep rest.
Proof.
  induction 1 as [|c a Hc Ha IH]; simpl.
  - by rewrite N.eqb_refl.
  - rewrite (proj2 (N.eqb_neq c sep) Hc), IH. done.
Qed.

Lemma length_split sep s :
  length (split sep s) = S (length (filter (fun c => c = sep) s)).
Proof.
  induction s as [|c s IH]; simpl; [done|].
  rewrite filter_cons. destruct (N.eqb_spec c sep) as [->|Hne].
  - rewrite decide_True by done. simpl. by rewrite IH.
  - rewrite decide_False by done.
    pose proof (split_nonempty sep s).
    destruct (split sep s) as [|p ps]; [done|]. simpl in *. done.
Qed.

End Split.

Section Int.

Lemma int_digit_run ds :
  ds <> [] -> Forall is_digit ds -> int ds = Ok (digits_value 0 ds).
Proof.
  intros Hne Hd. unfold int. rewrite strip_no_space.
  2:{ eapply Forall_impl; [exact Hd|]. apply is_digit_not_space. }
  destruct ds as [|c ds']; [done|].
  assert (Hc : is_digit c) by (by inversion Hd). unfold is_digit in Hc.
  assert (Hdig : digits 0 false (c :: ds') = Ok (digits_value 0 (c :: ds')))
    by (apply digits_digits_value; auto).
  destruct c as [|p]; [lia|].
  repeat (destruct p as [p|p|]; try exact Hdig); lia.
Qed.

Lemma digits_letter s : forall acc b c,
  c ∈ s -> is_letter c -> digits acc b s = Raise ValueError.
Proof.
  induction s as [|x s IH]; intros acc b c Hc Hl;
    [by apply elem_of_nil in Hc|].
  simpl. destruct (digit x) eqn:Ed.
  - apply elem_of_cons in Hc as [->|Hc]; [|by eapply IH].
    unfold digit in Ed. unfold is_letter in Hl.
    destruct (N.leb_spec 48 x), (N.leb_spec x 57); simpl in Ed; try done; lia.
  - destruct ((x =? 95)%N && b) eqn:Eu; [|done].
    apply andb_true_iff in Eu as [Ex _]. apply N.eqb_eq in Ex. subst x.
    apply elem_of_cons in Hc as [->|Hc]; [|by eapply IH].
    unfold is_letter in Hl. lia.
Qed.

Lemma int_letter w c :
  Forall (fun c => isspace c = false) w -> c ∈ w -> is_letter c ->
  int w = Raise ValueError.
Proof.
  intros Hns Hc Hl. unfold int. rewrite strip_no_space by done.
  destruct w as [|x w]; [by apply elem_of_nil in Hc|].
  assert (Hall : digits 0 false (x :: w) = Raise ValueError)
    by (by eapply digits_letter).
  assert (Hrest : x = 45%N \/ x = 43%N -> digits 0 false w = Raise ValueError).
  { intros Hx. apply elem_of_cons in Hc as [->|Hc]; [|by eapply digits_letter].
    unfold is_letter in Hl. lia. }
  destruct (decide (x = 45%N)) as [->|N1]; [by rewrite Hrest by auto|].
  destruct (decide (x = 43%N)) as [->|N2]; [by rewrite Hrest by auto|].
  destruct x as [|p]; [exact Hall|].
  repeat (destruct p as [p|p|]; try exact Hall); done.
Qed.

End Int.

(** ** Times of the schedule *)

(** X1. A time written as three non-empty runs of ASCII digits separated
    by two colons is read as hours * 3600 + minutes * 60 + seconds; the
    hours are not cut at 24, so a time after midnight of the service day
    ("25:10:05") is read as such. *)
Theorem gtfs_time_of_digit_fields h m s :
  h <> [] -> m <> [] -> s <> [] ->
  Forall is_digit h -> Forall is_digit m -> Forall is_digit s ->
  _gtfs_time_to_seconds (h ++ py ":" ++ m ++ py ":" ++ s)
  = Ok (digits_value 0 h * 3600 + digits_value 0 m * 60 + digits_value 0 s).
Proof.
  intros Hh Hm Hs Dh Dm Ds.
  assert (Hsep : forall l, Forall is_digit l -> Forall (fun c => c <> 58%N) l).
  { intros l Hl. eapply Forall_impl; [exact Hl|]. unfold is_digit. lia. }
  unfold _gtfs_time_to_seconds. change (py ":") with [58%N]. simpl.
  rewrite split_app_sep by auto. rewrite split_app_sep by auto.
  rewrite split_no_sep by auto.
  rewrite !int_digit_run by done. reflexivity.
Qed.

Lemma gtfs_time_of_digit_fields_witness :
  _gtfs_time_to_seconds (py "25:10:05") = Ok (25 * 3600 + 10 * 60 + 5).
Proof.
  change (py "25:10:05") with (py "25" ++ py ":" ++ py "10" ++ py ":" ++ py "05").
  rewrite gtfs_time_of_digit_fields;
    [vm_compute; reflexivity|done|done|done|..];
    apply (bool_decide_eq_true_1 _); vm_compute; reflexivity.
Defined.

(** X2. A time that does not hold exactly two colons is refused: the
    conversion raises ValueError. *)
Theorem gtfs_time_needs_two_colons t :
  length (filter (fun c => c = 58%N) t) <> 2%nat ->
  _gtfs_time_to_seconds t = Raise ValueError.
Proof.
  intros Hn. unfold _gtfs_time_to_seconds.
  pose proof (length_split 58 t) as Hl.
  destruct (split 58 t) as [|h [|m [|s [|x l]]]]; try done.
  simpl in Hl. lia.
Qed.

Lemma gtfs_time_needs_two_colons_witness :
  _gtfs_time_to_seconds (py "08:05") = Raise ValueError.
Proof. apply gtfs_time_needs_two_colons. vm_compute. lia. Defined.

(** ** More on the arrival query *)

Section Window.

Lemma select_upcoming_nonempty now_sec st2 r :
  r ∈ st2 -> now_sec <= d_dep_sec r -> select_upcoming now_sec st2 <> [].
Proof.
  intros Hr Hahead. unfold select_upcoming. case_bool_decide as Hw; [|done].
  intros Hnil.
  assert (Hin : r ∈ filter (fun r => d_dep_sec r >= now_sec) st2)
    by (apply list_elem_of_filter; split; [lia|done]).
  rewrite Hnil in Hin. by apply elem_of_nil in Hin.
Qed.

Lemma select_upcoming_in_window now_sec st2 r x :
  r ∈ st2 -> now_sec <= d_dep_sec r <= now_sec + 4 * 3600 ->
  x ∈ select_upcoming now_sec st2 ->
  now_sec <= d_dep_sec x <= now_sec + 4 * 3600.
Proof.
  intros Hr Hwin. unfold select_upcoming. case_bool_decide as Hw.
  - assert (Hin : r ∈ filter (fun r => d_dep_sec r >= now_sec
                                /\ d_dep_sec r <= now_sec + 4 * 3600) st2)
      by (apply list_elem_of_filter; split; [lia|done]).
    rewrite Hw in Hin. by apply elem_of_nil in Hin.
  - intros Hx. apply list_elem_of_filter in Hx as [Hx _]. lia.
Qed.

Lemma route_name_nonempty row : route_name row <> [].
Proof.
  unfold route_name. case_bool_decide as Hsn; [done|].
  case_bool_decide as Hln; [done|].
  destruct (r_route_id row) as [[|x s]|]; simpl; done.
Qed.

End Window.

(** X3. A stop that no row of stop_times.txt names has no arrivals: the
    query returns the empty list, whatever the other tables, the clock and
    the limit are. *)
Theorem unknown_stop_has_no_arrivals cache today now stop_id limit st :
  stop_times cache = Some st ->
  rows_of_stop st stop_id = [] ->
  next_scheduled_arrivals_for_stop cache today now stop_id limit = Ok [].
Proof.
  intros Hst Hrows. unfold next_scheduled_arrivals_for_stop, arrival_rows.
  rewrite Hst. destruct (trips cache); [|done]. destruct (routes cache); [|done].
  by rewrite Hrows.
Qed.

Lemma unknown_stop_has_no_arrivals_witness :
  next_scheduled_arrivals_for_stop sample_cache sample_today sample_now
    (py "9999") 3 = Ok [].
Proof.
  apply (unknown_stop_has_no_arrivals _ _ _ _ _ sample_stop_times);
    reflexivity.
Defined.

(** X5. When the three tables are loaded and the times of the stop
    convert, one departure of the stop at or after the current time is
    enough for the query to return at least one arrival, for every limit
    and whatever the calendar says. *)
Theorem departure_ahead_is_shown cache today now stop_id limit st trs rts st2 r :
  stop_times cache = Some st -> trips cache = Some trs ->
  routes cache = Some rts ->
  add_dep_sec (rows_of_stop st stop_id) = Ok st2 ->
  r ∈ st2 -> _now_service_seconds now <= d_dep_sec r ->
  exists first rest,
    next_scheduled_arrivals_for_stop cache today now stop_id limit
    = Ok (first :: rest).
Proof.
  intros Hst Htr Hrt Hdep Hr Hahead.
  pose proof (select_upcoming_nonempty _ _ _ Hr Hahead) as Hup.
  pose proof (arrival_rows_unfold cache today now stop_id limit _ _ _ _
                Hst Htr Hrt Hdep) as Hrows.
  cbv zeta in Hrows. rewrite bool_decide_eq_false_2 in Hrows by done.
  rewrite (next_scheduled_of_rows _ _ _ _ _ _ Hrows).
  pose proof (dedup_loop_nonempty limit _ (ranked_nonempty cache today trs rts _ Hup))
    as Hne.
  destruct (dedup_loop limit ∅ [] _) as [|x l]; [done|].
  rewrite fmap_cons. eauto.
Qed.

Lemma departure_ahead_is_shown_witness :
  exists first rest,
    next_scheduled_arrivals_for_stop sample_cache sample_today sample_now
      (py "1111") (-5) = Ok (first :: rest).
Proof.
  apply (departure_ahead_is_shown _ _ _ _ _ sample_stop_times sample_trips
           sample_routes sample_dep_rows
           {| d_trip_id := cell_of "t1"; d_dep_sec := 28980 |});
    try reflexivity.
  - right. by left.
  - vm_compute. discriminate.
Defined.

(** X6. When some departure of the stop lies within the four hours
    ahead, every arrival returned is of the form "<label> <minutes>" with
    0 <= minutes <= 240: the departures beyond the window are used only
    when the window is empty. *)
Theorem minutes_within_four_hours cache today now stop_id limit st trs rts st2 r :
  stop_times cache = Some st -> trips cache = Some trs ->
  routes cache = Some rts ->
  add_dep_sec (rows_of_stop st stop_id) = Ok st2 ->
  let now_sec := _now_service_seconds now in
  r ∈ st2 -> now_sec <= d_dep_sec r <= now_sec + 4 * 3600 ->
  exists arrivals,
    next_scheduled_arrivals_for_stop cache today now stop_id limit = Ok arrivals
    /\ Forall (fun line => exists label mins,
                 0 <= mins <= 240
                 /\ line = label ++ py " " ++ str_int mins) arrivals.
Proof.
  intros Hst Htr Hrt Hdep now_sec Hr Hwin.
  destruct (arrivals_sorted_distinct_capped cache today now stop_id limit
              _ _ _ _ Hst Htr Hrt Hdep)
    as (rows & _ & Hout & Htake & _ & _ & _).
  fold now_sec in Hout, Htake.
  eexists. split; [exact Hout|].
  apply Forall_fmap, Forall_forall. intros x Hx. simpl.
  rewrite Htake in Hx. apply subseteq_take in Hx.
  apply first_occurrences_elem in Hx as [Hx _].
  apply ranked_source in Hx as (y & Hy & Hyx).
  pose proof (select_upcoming_in_window _ _ _ _ Hr Hwin Hy) as Hb.
  exists (route_name x), ((dep_sec x - now_sec) / 60).
  split.
  - split; [apply Z.div_pos; lia|].
    apply Z.div_le_upper_bound; lia.
  - unfold format_row. rewrite Z.max_r by (apply Z.div_pos; lia). done.
Qed.

Lemma minutes_within_four_hours_witness :
  exists arrivals,
    next_scheduled_arrivals_for_stop sample_cache sample_today sample_now
      (py "1111") 3 = Ok arrivals
    /\ Forall (fun line => exists label mins,
                 0 <= mins <= 240
                 /\ line = label ++ py " " ++ str_int mins) arrivals.
Proof.
  apply (minutes_within_four_hours _ _ _ _ _ sample_stop_times sample_trips
           sample_routes sample_dep_rows
           {| d_trip_id := cell_of "t1"; d_dep_sec := 28980 |});
    try reflexivity.
  - right. by left.
  - vm_compute. split; discriminate.
Defined.

Section Ranking.

Lemma first_occurrences_covers seen l x :
  x ∈ l -> dep_sec x ∉ seen ->
  exists x', x' ∈ first_occurrences seen l /\ dep_sec x' = dep_sec x.
Proof.
  revert seen. induction l as [|a l IH]; intros seen Hx Hns;
    [by apply elem_of_nil in Hx|].
  simpl. apply elem_of_cons in Hx as [->|Hx].
  - rewrite bool_decide_eq_false_2 by done. exists a. split; [by left|done].
  - case_bool_decide as Ha; [by apply IH|].
    destruct (decide (dep_sec x = dep_sec a)) as [E|E].
    + exists a. split; [by left|done].
    + destruct (IH (seen ∪ {[dep_sec a]}) Hx) as (x' & ? & ?); [set_solver|].
      exists x'. split; [by right|done].
Qed.

(** In a strictly increasing list, what comes before an element of a
    prefix is in the prefix. *)
Lemma take_sorted_downward n (l : list Row) r r' :
  StronglySorted dep_lt l -> r ∈ take n l -> r' ∈ l ->
  dep_sec r' < dep_sec r -> r' ∈ take n l.
Proof.
  intros Hs Hr Hr' Hlt. rewrite <- (take_drop n l) in Hr', Hs.
  apply elem_of_app in Hr' as [?|Hd]; [done|].
  assert (dep_lt r r')
    by (eapply StronglySorted_app_1_elem_of; [exact Hs|exact Hr|exact Hd]).
  unfold dep_lt in *. lia.
Qed.

End Ranking.

(** X7. For every limit, the arrivals returned are rows of the candidates
    (the rows of the window after both merges and the service filter)
    with strictly increasing departure seconds, at most max(1, limit) of
    them; no departure second of a candidate is passed over for a later
    one, and every candidate has its departure second among them unless
    the cap was reached.  Which of several candidates with the same
    departure second is shown is left open. *)
Theorem arrivals_ranked_deduplicated_capped
    cache today now stop_id limit st trs rts st2 :
  stop_times cache = Some st -> trips cache = Some trs ->
  routes cache = Some rts ->
  add_dep_sec (rows_of_stop st stop_id) = Ok st2 ->
  let now_sec := _now_service_seconds now in
  let candidates :=
    merge_routes
      (filter_active (active_service_ids_for_today cache today)
         (trips_has_service_id trs)
         (merge_trips (select_upcoming now_sec st2) trs))
      rts in
  exists rows,
    next_scheduled_arrivals_for_stop cache today now stop_id limit
    = Ok (format_row now_sec <$> rows)
    /\ len rows <= Z.max 1 limit
    /\ StronglySorted dep_lt rows
    /\ (forall r, r ∈ rows -> r ∈ candidates)
    /\ (forall r c, r ∈ rows -> c ∈ candidates -> dep_sec c < dep_sec r ->
          exists r', r' ∈ rows /\ dep_sec r' = dep_sec c)
    /\ (forall c, c ∈ candidates ->
          (exists r', r' ∈ rows /\ dep_sec r' = dep_sec c)
          \/ len rows = Z.max 1 limit).
Proof.
  intros Hst Htr Hrt Hdep now_sec candidates.
  destruct (arrivals_sorted_distinct_capped cache today now stop_id limit
              _ _ _ _ Hst Htr Hrt Hdep)
    as (rows & _ & Hout & Htake & Hsorted & Hlen & _).
  fold now_sec in Hout, Htake.
  change (ranked cache today trs rts (select_upcoming now_sec st2))
    with (sort_values candidates) in Htake.
  assert (Hmem : forall x, x ∈ sort_values candidates <-> x ∈ candidates)
    by (intros x; by rewrite sort_values_perm).
  assert (Hfo : StronglySorted dep_lt (first_occurrences ∅ (sort_values candidates)))
    by apply first_occurrences_sorted, sort_values_sorted.
  exists rows. split_and!; [done|done|done| | |].
  - intros r Hr. rewrite Htake in Hr. apply subseteq_take in Hr.
    apply first_occurrences_elem in Hr as [Hr _]. by apply Hmem.
  - intros r c Hr Hc Hlt. apply Hmem in Hc.
    destruct (first_occurrences_covers ∅ _ c Hc) as (r' & Hr' & E);
      [set_solver|].
    exists r'. split; [|done]. rewrite Htake in Hr |- *.
    eapply take_sorted_downward; [exact Hfo|exact Hr|exact Hr'|lia].
  - intros c Hc. apply Hmem in Hc.
    destruct (decide (length (first_occurrences ∅ (sort_values candidates))
                      <= Z.to_nat (Z.max 1 limit))%nat) as [Hall|Hcut].
    + left. rewrite take_ge in Htake by done.
      destruct (first_occurrences_covers ∅ _ c Hc) as (r' & Hr' & E);
        [set_solver|].
      exists r'. by rewrite Htake.
    + right. rewrite Htake. unfold len. rewrite length_take. lia.
Qed.

Lemma arrivals_ranked_deduplicated_capped_witness :
  exists rows,
    next_scheduled_arrivals_for_stop sample_cache sample_today sample_now
      (py "1111") 2
    = Ok (format_row (_now_service_seconds sample_now) <$> rows)
    /\ len rows <= 2 /\ StronglySorted dep_lt rows.
Proof.
  destruct (arrivals_ranked_deduplicated_capped sample_cache sample_today
              sample_now (py "1111") 2 sample_stop_times sample_trips
              sample_routes sample_dep_rows eq_refl eq_refl eq_refl eq_refl)
    as (rows & Hout & Hlen & Hs & _).
  exists rows. split_and!; [exact Hout|exact Hlen|exact Hs].
Defined.

(** ** More on the service calendar *)

Section CalendarMore.

(** The resolver without any assumption on the columns: the rules that
    count are those in range, further cut by the weekday flag when the
    column is there. *)
Lemma active_service_ids_unfold_any cache today :
  active_service_ids_for_today cache today
  = foldl apply_exception
      (list_to_set
         ((fun r => astype_str (service_id r)) <$>
            match calendar cache with
            | Some cal =>
                if calendar_has_column cal (_weekday_col today)
                then filter (rule_in_force today) (calendar_rows cal)
                else filter (in_date_range today) (calendar_rows cal)
            | None => []
            end))
      (filter (dated today) (calendar_exceptions cache)).
Proof.
  unfold active_service_ids_for_today, calendar_exceptions. cbv zeta.
  assert (Hrange : forall rows : list CalendarRule,
    filter (fun r => to_numeric_fillna0 (start_date r) <= yyyymmdd today
                     /\ to_numeric_fillna0 (end_date r) >= yyyymmdd today) rows
    = filter (in_date_range today) rows).
  { intros rows. apply list_filter_iff. intros r. unfold in_date_range. lia. }
  assert (Hforce : forall rows : list CalendarRule,
    filter (fun r => to_numeric_fillna0 (flag r (_weekday_col today)) = 1)
      (filter (in_date_range today) rows)
    = filter (rule_in_force today) rows).
  { intros rows. rewrite list_filter_filter. apply list_filter_iff.
    intros r. unfold rule_in_force, in_date_range. tauto. }
  set (base := match calendar cache with
               | Some cal => if bool_decide (calendar_rows cal <> []) then _ else _
               | None => _ end).
  assert (Hbase : base = list_to_set
         ((fun r => astype_str (service_id r)) <$>
            match calendar cache with
            | Some cal =>
                if calendar_has_column cal (_weekday_col today)
                then filter (rule_in_force today) (calendar_rows cal)
                else filter (in_date_range today) (calendar_rows cal)
            | None => []
            end)).
  { unfold base. destruct (calendar cache) as [cal|]; [|done].
    case_bool_decide as Hrows.
    - rewrite (left_id_L ∅ (∪)). rewrite Hrange.
      destruct (calendar_has_column cal (_weekday_col today)); [|done].
      by rewrite Hforce.
    - rewrite Hrows. by destruct (calendar_has_column _ _). }
  rewrite Hbase.
  destruct (calendar_dates cache) as [cald|]; [|done].
  case_bool_decide as Hd; [done|]. by rewrite Hd.
Qed.

End CalendarMore.

(** X9. Every service that the resolver reports as active is supported
    by a row of the feed: an exception dated today that adds it, or a
    calendar rule of that service whose date range contains today. *)
Theorem active_service_is_supported cache today sid :
  sid ∈ active_service_ids_for_today cache today ->
  (exists e, e ∈ calendar_exceptions cache /\ dated today e /\ adds sid e)
  \/ (exists r, r ∈ calendar_rules cache /\ in_date_range today r
                /\ astype_str (service_id r) = sid).
Proof.
  rewrite active_service_ids_unfold_any, foldl_apply_exception_elem.
  intros [(pre & e & post & E & Ha & _)|[Hbase _]].
  - left. exists e. assert (He : e ∈ filter (dated today) (calendar_exceptions cache))
      by (rewrite E; apply elem_of_app; right; by left).
    apply list_elem_of_filter in He as [? ?]. done.
  - right. apply elem_of_list_to_set, list_elem_of_fmap in Hbase
      as (r & -> & Hr).
    unfold calendar_rules. destruct (calendar cache) as [cal|];
      [|by apply elem_of_nil in Hr].
    exists r. destruct (calendar_has_column cal (_weekday_col today));
      apply list_elem_of_filter in Hr as [Hf Hr]; split_and!; try done.
    by destruct Hf.
Qed.

Lemma active_service_is_supported_witness :
  (exists e, e ∈ calendar_exceptions sample_cache /\ dated sample_today e
             /\ adds (py "HOL") e)
  \/ (exists r, r ∈ calendar_rules sample_cache /\ in_date_range sample_today r
                /\ astype_str (service_id r) = py "HOL").
Proof.
  apply active_service_is_supported.
  apply (bool_decide_eq_true_1 _). vm_compute. reflexivity.
Defined.



(** ** More on the alert query *)

Section Resolve.

(** The resolution as a function of the normalised filter alone. *)
Lemma route_ids_by_normal_form cache f :
  _route_ids_for_short_name cache (Some f)
  = match routes cache with
    | Some rts =>
        let sn := lower (strip f) in
        if bool_decide (rts = []) || bool_decide (sn = []) then None
        else
          let matched :=
            filter (fun r => lower (strip (astype_str (route_short_name r))) = sn)
                   rts in
          let matched :=
            if bool_decide (matched = [])
            then filter (fun r => lower (astype_str (route_id r)) = sn) rts
            else matched in
          if bool_decide (matched = []) then Some ∅
          else Some (list_to_set ((fun r => astype_str (route_id r)) <$> matched))
    | None => None
    end.
Proof.
  unfold _route_ids_for_short_name.
  destruct (routes cache) as [rts|]; [|done]. cbv zeta.
  destruct (bool_decide (rts = [])) eqn:Er; [by rewrite orb_true_r|].
  rewrite orb_false_r. simpl.
  destruct (bool_decide (f = [])) eqn:Ef; [|done].
  apply bool_decide_eq_true_1 in Ef. subst f. reflexivity.
Qed.

Lemma informed_loop_spec ents allowed :
  informed_loop ents allowed = true <->
  exists ent, ent ∈ ents /\ strip (es_route_id ent) <> []
              /\ strip (es_route_id ent) ∈ allowed.
Proof.
  induction ents as [|ent ents IH]; simpl.
  - split; [done|]. intros (ent & H & _). by apply elem_of_nil in H.
  - destruct (bool_decide (strip (es_route_id ent) <> [])
              && bool_decide (strip (es_route_id ent) ∈ allowed)) eqn:E.
    + apply andb_true_iff in E as [E1 E2].
      apply bool_decide_eq_true_1 in E1, E2.
      split; [|done]. intros _. exists ent. split_and!; [by left|done|done].
    + rewrite IH. split.
      * intros (x & Hx & ? & ?). exists x. split_and!; [by right|done|done].
      * intros (x & Hx & H1 & H2). apply elem_of_cons in Hx as [->|Hx].
        { rewrite (bool_decide_eq_true_2 _ H1), (bool_decide_eq_true_2 _ H2) in E.
          done. }
        exists x. done.
Qed.

Lemma kept_texts_nonempty_elems allowed ents :
  Forall (fun m => m <> []) (kept_texts allowed ents).
Proof.
  apply Forall_forall. intros m Hm. by apply elem_of_kept_texts in Hm as [? _].
Qed.

Lemma join_nonempty sep (msgs : list pystr) :
  msgs <> [] -> Forall (fun m => m <> []) msgs -> join sep msgs <> [].
Proof.
  intros Hne Hall. destruct msgs as [|m ms]; [done|].
  inversion Hall as [|? ? Hm _]; subst. simpl.
  destruct ms; [done|]. by destruct m.
Qed.

End Resolve.

(** X11. On ASCII text (where [lower] is [str.lower]), a route filter is
    read up to surrounding whitespace and the case of its letters: two
    filters with the same stripped, lower-cased text resolve to the same
    route identifiers and give the same alert text. *)
Theorem route_filter_normalised cache f f' max_len :
  is_ascii f -> is_ascii f' ->
  (forall rts, routes cache = Some rts -> Forall ascii_route rts) ->
  lower (strip f) = lower (strip f') ->
  _route_ids_for_short_name cache (Some f)
  = _route_ids_for_short_name cache (Some f')
  /\ get_alert_text cache (Some f) max_len
     = get_alert_text cache (Some f') max_len.
Proof.
  intros _ _ _ E.
  assert (H : _route_ids_for_short_name cache (Some f)
              = _route_ids_for_short_name cache (Some f')).
  { rewrite !route_ids_by_normal_form. by rewrite E. }
  split; [done|]. unfold get_alert_text. by rewrite H.
Qed.

Lemma route_filter_normalised_witness :
  get_alert_text sample_cache (Some (py "  GOLD ")) 160
  = get_alert_text sample_cache (Some (py "gold")) 160.
Proof.
  apply (route_filter_normalised sample_cache (py "  GOLD ") (py "gold") 160).
  - apply (bool_decide_eq_true_1 _). vm_compute. reflexivity.
  - apply (bool_decide_eq_true_1 _). vm_compute. reflexivity.
  - intros rts [= <-]. apply (bool_decide_eq_true_1 _). vm_compute. reflexivity.
  - reflexivity.
Defined.

(** X12. The identifiers a route filter resolves to are identifiers of
    rows of the route table. *)
Theorem resolved_route_ids_are_known cache f ids id :
  _route_ids_for_short_name cache f = Some ids -> id ∈ ids ->
  exists rts r, routes cache = Some rts /\ r ∈ rts
                /\ astype_str (route_id r) = id.
Proof.
  destruct f as [f|]; [|done]. rewrite route_ids_by_normal_form.
  destruct (routes cache) as [rts|]; [|done]. cbv zeta.
  destruct (_ || _); [done|].
  set (by_name := filter (fun r => lower (strip _) = _) rts).
  set (by_id := filter (fun r => lower (astype_str _) = _) rts).
  assert (Hn : by_name ⊆ rts)
    by (intros x Hx; by apply list_elem_of_filter in Hx as [_ ?]).
  assert (Hi : by_id ⊆ rts)
    by (intros x Hx; by apply list_elem_of_filter in Hx as [_ ?]).
  destruct (bool_decide (by_name = []));
    (case_bool_decide;
     [intros [= <-] Hid; set_solver
     |intros [= <-] Hid;
      apply elem_of_list_to_set, list_elem_of_fmap in Hid as (r & -> & Hr);
      exists rts, r; split_and!; [done|auto|done]]).
Qed.

Lemma resolved_route_ids_are_known_witness :
  exists rts r, routes sample_cache = Some rts /\ r ∈ rts
                /\ astype_str (route_id r) = py "507".
Proof.
  apply (resolved_route_ids_are_known sample_cache (Some (py "Gold"))
           {[ py "507" ]} (py "507")).
  - vm_compute. reflexivity.
  - set_solver.
Defined.

(** X13. Without a resolved filter every alert applies.  With one, an
    alert applies exactly when one of its informed entities names, after
    stripping, a non-empty route identifier of the allowed set; so an alert
    that names no route applies under no filter that resolved. *)
Theorem alert_applies_iff_names_allowed_route a allowed :
  (_alert_applies_to_routes a None = true)
  /\ (_alert_applies_to_routes a (Some allowed) = true <->
      exists ent, ent ∈ informed_entity a /\ strip (es_route_id ent) <> []
                  /\ strip (es_route_id ent) ∈ allowed)
  /\ (Forall (fun ent => strip (es_route_id ent) = []) (informed_entity a) ->
      _alert_applies_to_routes a (Some allowed) = false).
Proof.
  split_and!; [done|apply informed_loop_spec|].
  intros Hall. apply not_true_is_false. intros H.
  apply informed_loop_spec in H as (ent & Hent & Hne & _).
  rewrite Forall_forall in Hall. by apply Hne, Hall.
Qed.

Lemma alert_applies_iff_names_allowed_route_witness :
  _alert_applies_to_routes stationwide_alert (Some {[ py "507" ]}) = false.
Proof.
  apply (proj2 (proj2 (alert_applies_iff_names_allowed_route _ _))).
  repeat constructor.
Defined.

(** X14. The alert text is never empty, and for a budget max_len >= 0
    it has at most max(9, max_len + 1) characters: "No alerts" has 9, and
    a cut text has max_len characters and the ellipsis. *)
Theorem alert_text_nonempty_and_bounded cache route_filter max_len :
  get_alert_text cache route_filter max_len <> []
  /\ (0 <= max_len ->
      len (get_alert_text cache route_filter max_len)
      <= Z.max (len (py "No alerts")) (max_len + 1)).
Proof.
  destruct (alerts cache) as [feed|] eqn:Hal.
  2:{ unfold get_alert_text. rewrite Hal. split; [done|].
      intros _. apply Z.le_max_l. }
  rewrite (get_alert_text_unfold _ _ _ _ Hal). cbv zeta.
  set (msgs := kept_texts _ _).
  case_bool_decide as Hm.
  { split; [done|]. intros _. apply Z.le_max_l. }
  pose proof (join_nonempty (py " | ") msgs Hm
                (kept_texts_nonempty_elems _ _)) as Hout.
  set (out := join (py " | ") msgs) in *.
  destruct (len out >? max_len) eqn:Hcut.
  - split; [by destruct (slice_to out max_len)|].
    intros Hmax. rewrite slice_to_nonneg by done.
    unfold len. rewrite length_app, length_take. simpl. lia.
  - rewrite app_nil_r. rewrite Z.gtb_ltb in Hcut. apply Z.ltb_ge in Hcut.
    assert (0 <= max_len).
    { unfold len in Hcut. lia. }
    rewrite slice_to_nonneg by done.
    rewrite take_ge by (unfold len in Hcut; lia).
    split; [done|]. intros _. lia.
Qed.

Lemma alert_text_nonempty_and_bounded_witness :
  len (get_alert_text sample_cache None 20) <= 21.
Proof.
  pose proof (proj2 (alert_text_nonempty_and_bounded sample_cache None 20)
                ltac:(lia)) as H.
  vm_compute in H. vm_compute. exact H.
Defined.

(** ** More on the cache refresh *)

Section StaticRefresh.

(** What a static refresh that was carried out to the end leaves behind. *)
Lemma ensure_gtfs_loaded_performed now net cache cache' :
  (bool_decide (stops cache <> None)
   && (now - gtfs_loaded_at cache <? GTFS_REFRESH_SECONDS)) = false ->
  ensure_gtfs_loaded now net cache = (cache', Ok tt) ->
  exists z,
    net GTFS_ZIP_URL = Ok (ZipOf z)
    /\ gtfs_loaded_at cache' = now
    /\ read_csv (stops_txt z) = Ok (stops cache')
    /\ read_csv (stop_times_txt z) = Ok (stop_times cache')
    /\ read_csv (trips_txt z) = Ok (trips cache')
    /\ read_csv (routes_txt z) = Ok (routes cache')
    /\ read_csv (calendar_txt z) = Ok (calendar cache')
    /\ read_csv (calendar_dates_txt z) = Ok (calendar_dates cache')
    /\ rt_loaded_at cache' = rt_loaded_at cache
    /\ trip_updates cache' = trip_updates cache
    /\ alerts cache' = alerts cache.
Proof.
  intros Hstale. unfold ensure_gtfs_loaded, fetch_bytes. rewrite Hstale.
  unfold bindM, liftM, assign.
  destruct (net GTFS_ZIP_URL) as [[|z|m]|e]; simpl; try done.
  destruct (stops_txt z) eqn:E1, (stop_times_txt z) eqn:E2,
    (trips_txt z) eqn:E3, (routes_txt z) eqn:E4, (calendar_txt z) eqn:E5,
    (calendar_dates_txt z) eqn:E6; simpl; try done;
    intros [= <-]; exists z; rewrite E1, E2, E3, E4, E5, E6;
    split_and!; reflexivity.
Qed.

End StaticRefresh.

(** X15. The realtime refresh is all or nothing: when it raises, the
    cache is as before; when it returns, either the cache is as before, or
    both messages were downloaded and parsed, both are in the cache with
    the time of the refresh, and nothing else has changed. *)
Theorem realtime_refresh_all_or_nothing now net cache cache' r :
  ensure_rt_loaded now net cache = (cache', r) ->
  match r with
  | Raise _ => cache' = cache
  | Ok _ =>
      cache' = cache
      \/ exists tu al,
           net GTFSRT_TRIPS_URL = Ok (MessageOf tu)
           /\ net GTFSRT_ALERTS_URL = Ok (MessageOf al)
           /\ trip_updates cache' = Some tu /\ alerts cache' = Some al
           /\ rt_loaded_at cache' = now
           /\ set_rt_loaded_at (rt_loaded_at cache)
                (set_alerts (alerts cache)
                   (set_trip_updates (trip_updates cache) cache')) = cache
  end.
Proof.
  intros H. pose proof (ensure_rt_loaded_all_or_nothing _ _ _ _ _ H) as Hr.
  destruct r as [[]|e]; [|done].
  destruct Hr as [->|(tu & al & Htu & Hal & ->)]; [by left|].
  right. exists tu, al. split_and!; try done. by destruct cache.
Qed.

Lemma realtime_refresh_all_or_nothing_witness :
  ensure_rt_loaded 5000 half_broken_net sample_cache
  = (sample_cache, Raise DecodeError).
Proof.
  pose proof (realtime_refresh_all_or_nothing 5000 half_broken_net sample_cache)
    as H.
  destruct (ensure_rt_loaded 5000 half_broken_net sample_cache) as [c r] eqn:E.
  specialize (H c r eq_refl).
  assert (Hr : r = Raise DecodeError) by (vm_compute in E; congruence).
  subst r. simpl in H. by rewrite H.
Defined.

(** X16. When the download of the archive fails, or its body is no zip
    archive, the static refresh leaves the cache as it was; it returns
    normally only if the cache was fresh, that is, no download was
    tried. *)
Theorem static_refresh_download_failure now net cache :
  (exists e, net GTFS_ZIP_URL = Raise e)
  \/ (exists b, net GTFS_ZIP_URL = Ok b /\ forall z, b <> ZipOf z) ->
  exists r, ensure_gtfs_loaded now net cache = (cache, r)
            /\ (r = Ok tt ->
                stops cache <> None
                /\ now - gtfs_loaded_at cache < GTFS_REFRESH_SECONDS).
Proof.
  intros H. unfold ensure_gtfs_loaded.
  destruct (bool_decide (stops cache <> None)) eqn:Es;
    destruct (now - gtfs_loaded_at cache <? GTFS_REFRESH_SECONDS) eqn:Et; simpl.
  { eexists. split; [done|]. intros _.
    apply bool_decide_eq_true_1 in Es. apply Z.ltb_lt in Et. done. }
  all: unfold bindM, liftM, fetch_bytes;
    destruct H as [[e ->]|(b & -> & Hb)]; simpl; [by eexists|];
    destruct b as [|z|m]; simpl; try (by eexists); by destruct (Hb z).
Qed.

Lemma static_refresh_download_failure_witness :
  ensure_gtfs_loaded 200000 down_net sample_cache
  = (sample_cache, Raise HTTPError).
Proof.
  destruct (static_refresh_download_failure 200000 down_net sample_cache)
    as (r & H & _); [left; by eexists|].
  rewrite H. f_equal. vm_compute in H. by injection H as <-.
Defined.

(** X17. After a static refresh that was carried out and stored a stops
    table, the cache is fresh: for the next 24 hours a call returns at once
    without changing the cache, whatever the network does. *)
Theorem static_refresh_then_fresh now net cache cache' :
  (stops cache = None \/ GTFS_REFRESH_SECONDS <= now - gtfs_loaded_at cache) ->
  ensure_gtfs_loaded now net cache = (cache', Ok tt) ->
  stops cache' <> None ->
  forall now' net',
    now' - now < GTFS_REFRESH_SECONDS ->
    ensure_gtfs_loaded now' net' cache' = (cache', Ok tt).
Proof.
  intros Hstale Hload Hstops now' net' Hfresh.
  assert (Hs : (bool_decide (stops cache <> None)
                && (now - gtfs_loaded_at cache <? GTFS_REFRESH_SECONDS)) = false).
  { destruct Hstale as [->|Hold].
    - by rewrite bool_decide_eq_false_2 by (by intros ?).
    - rewrite (proj2 (Z.ltb_ge _ _) Hold). apply andb_false_r. }
  destruct (ensure_gtfs_loaded_performed _ _ _ _ Hs Hload) as (z & _ & Hat & _).
  unfold ensure_gtfs_loaded. rewrite Hat.
  rewrite (bool_decide_eq_true_2 _ Hstops), (proj2 (Z.ltb_lt _ _) Hfresh).
  done.
Qed.

Lemma static_refresh_then_fresh_witness :
  exists cache',
    ensure_gtfs_loaded 1005 sample_net empty_cache = (cache', Ok tt)
    /\ ensure_gtfs_loaded 80000 down_net cache' = (cache', Ok tt).
Proof.
  eexists. split; [vm_compute; reflexivity|].
  eapply (static_refresh_then_fresh 1005 sample_net empty_cache);
    [by left|vm_compute; reflexivity|vm_compute; discriminate
    |vm_compute; reflexivity].
Defined.

(** X18. An archive without stops.txt is loaded, but the cache it leaves
    is never fresh: the stops table stays None, so the very next call
    downloads again, and fails if the download fails. *)
Theorem static_cache_without_stops_never_fresh now net cache cache' z :
  stops cache = None ->
  net GTFS_ZIP_URL = Ok (ZipOf z) -> stops_txt z = Absent ->
  ensure_gtfs_loaded now net cache = (cache', Ok tt) ->
  stops cache' = None
  /\ forall now' net' e,
       net' GTFS_ZIP_URL = Raise e ->
       ensure_gtfs_loaded now' net' cache' = (cache', Raise e).
Proof.
  intros Hnone Hz Habs Hload.
  assert (Hs : (bool_decide (stops cache <> None)
                && (now - gtfs_loaded_at cache <? GTFS_REFRESH_SECONDS)) = false)
    by (by rewrite Hnone, bool_decide_eq_false_2 by (by intros ?)).
  destruct (ensure_gtfs_loaded_performed _ _ _ _ Hs Hload)
    as (z' & Hz' & _ & Hstops & _).
  rewrite Hz in Hz'. injection Hz' as <-. rewrite Habs in Hstops.
  simpl in Hstops. injection Hstops as Hstops.
  split; [done|]. intros now' net' e He.
  unfold ensure_gtfs_loaded, fetch_bytes. rewrite <- Hstops.
  rewrite bool_decide_eq_false_2 by (by intros ?). simpl.
  unfold bindM, liftM. by rewrite He.
Qed.

Lemma static_cache_without_stops_never_fresh_witness :
  exists cache',
    ensure_gtfs_loaded 1005 net_without_stops empty_cache = (cache', Ok tt)
    /\ ensure_gtfs_loaded 1006 down_net cache' = (cache', Raise HTTPError).
Proof.
  eexists. split; [vm_compute; reflexivity|].
  eapply (static_cache_without_stops_never_fresh 1005 net_without_stops
            empty_cache _ archive_without_stops);
    reflexivity.
Defined.

(** X19. After a realtime refresh that was carried out, a call within
    the next 15 seconds returns at once without changing the cache; from
    15 seconds on the call downloads again, and when the first download
    fails it raises and leaves the cache as it was. *)
Theorem realtime_refresh_then_fresh now net cache cache' :
  (alerts cache = None \/ RT_REFRESH_SECONDS <= now - rt_loaded_at cache) ->
  ensure_rt_loaded now net cache = (cache', Ok tt) ->
  (forall now' net',
     now' - now < RT_REFRESH_SECONDS ->
     ensure_rt_loaded now' net' cache' = (cache', Ok tt))
  /\ (forall now' net' e,
        RT_REFRESH_SECONDS <= now' - now ->
        net' GTFSRT_TRIPS_URL = Raise e ->
        ensure_rt_loaded now' net' cache' = (cache', Raise e)).
Proof.
  intros Hstale Hload.
  assert (Hs : (bool_decide (alerts cache <> None)
                && (now - rt_loaded_at cache <? RT_REFRESH_SECONDS)) = false).
  { destruct Hstale as [->|Hold].
    - by rewrite bool_decide_eq_false_2 by (by intros ?).
    - rewrite (proj2 (Z.ltb_ge _ _) Hold). apply andb_false_r. }
  assert (Hc : alerts cache' <> None /\ rt_loaded_at cache' = now).
  { revert Hload. unfold ensure_rt_loaded, fetch_bytes. rewrite Hs.
    unfold bindM, liftM, assign.
    destruct (net GTFSRT_TRIPS_URL) as [[|z1|tu]|e1];
      destruct (net GTFSRT_ALERTS_URL) as [[|z2|al]|e2]; simpl; try done.
    intros [= <-]. done. }
  destruct Hc as [Hal Hat]. split.
  - intros now' net' Hfresh. unfold ensure_rt_loaded. rewrite Hat.
    by rewrite (bool_decide_eq_true_2 _ Hal), (proj2 (Z.ltb_lt _ _) Hfresh).
  - intros now' net' e Hold He. unfold ensure_rt_loaded, fetch_bytes.
    rewrite Hat, (proj2 (Z.ltb_ge _ _) Hold), andb_false_r.
    unfold bindM, liftM. by rewrite He.
Qed.

Lemma realtime_refresh_then_fresh_witness :
  exists cache',
    ensure_rt_loaded 1005 sample_net empty_cache = (cache', Ok tt)
    /\ ensure_rt_loaded 1019 down_net cache' = (cache', Ok tt)
    /\ ensure_rt_loaded 1020 down_net cache' = (cache', Raise HTTPError).
Proof.
  eexists. split; [vm_compute; reflexivity|].
  destruct (realtime_refresh_then_fresh 1005 sample_net empty_cache _
              ltac:(by left) ltac:(vm_compute; reflexivity)) as [Hf Hs].
  split.
  - apply Hf. vm_compute. reflexivity.
  - apply Hs; [vm_compute; discriminate|reflexivity].
Defined.

(** ** The display client *)

Section Client.

Lemma len_app {A} (l k : list A) : len (l ++ k) = len l + len k.
Proof. unfold len. rewrite length_app. lia. Qed.

Lemma len_nonneg {A} (l : list A) : 0 <= len l.
Proof. unfold len. lia. Qed.

Lemma len_slice_to (s : pystr) n :
  0 <= n -> len (slice_to s n) = Z.min n (len s).
Proof.
  intros H. rewrite slice_to_nonneg by done. unfold len.
  rewrite length_take. lia.
Qed.

Lemma len_spaces n : len (spaces n) = Z.max 0 n.
Proof. unfold len, spaces. rewrite length_replicate. lia. Qed.

Lemma len_pad_right s width : 0 <= width -> len (pad_right s width) = width.
Proof.
  intros H. unfold pad_right. rewrite len_app, len_slice_to, len_spaces by done.
  pose proof (len_nonneg (match s with None => [] | Some s => s end)). lia.
Qed.

Lemma split_whitespace_run w : forall cur rest,
  Forall (fun c => isspace c = false) w ->
  split_whitespace cur (w ++ rest) = split_whitespace (cur ++ w) rest.
Proof.
  induction w as [|c w IH]; intros cur rest Hw; simpl.
  - by rewrite app_nil_r.
  - inversion Hw as [|? ? Hc Hw']; subst. rewrite Hc, IH by done.
    by rewrite <- app_assoc.
Qed.

Lemma split_whitespace_word w rest :
  w <> [] -> Forall (fun c => isspace c = false) w ->
  split_whitespace [] (w ++ py " " ++ rest) = w :: split_whitespace [] rest.
Proof.
  intros Hne Hns. rewrite split_whitespace_run by done. simpl.
  change (py " ") with [32%N]. simpl. by rewrite bool_decide_eq_false_2.
Qed.

Lemma split_whitespace_last w :
  w <> [] -> Forall (fun c => isspace c = false) w ->
  split_whitespace [] w = [w].
Proof.
  intros Hne Hns. rewrite <- (app_nil_r w) at 1.
  rewrite split_whitespace_run by done. simpl.
  by rewrite bool_decide_eq_false_2.
Qed.

Lemma strip_line (label : pystr) rest :
  (exists c l, label = c :: l /\ isspace c = false) ->
  strip (label ++ py " " ++ str_int rest) = label ++ py " " ++ str_int rest.
Proof.
  intros (first & l & -> & Hf).
  destruct (exists_last (str_int_nonempty rest)) as (t & z & E).
  apply (strip_id first (l ++ py " " ++ str_int rest) z
           ((first :: l) ++ py " " ++ t)).
  - done.
  - pose proof (str_int_no_space rest) as Hd. rewrite E in Hd.
    apply Forall_app in Hd as [_ Hd]. by inversion Hd.
  - rewrite E. simpl. by rewrite <- !app_assoc.
Qed.

Lemma line_not_dashes (label : pystr) rest :
  label ++ py " " ++ rest <> [] /\ label ++ py " " ++ rest <> py "--".
Proof.
  split; [by destruct label|]. intros E.
  assert (Hin : 32%N ∈ label ++ py " " ++ rest)
    by (apply elem_of_app; right; by left).
  rewrite E in Hin. vm_compute in Hin.
  apply elem_of_cons in Hin as [?|Hin]; [done|].
  apply elem_of_cons in Hin as [?|Hin]; [done|]. by apply elem_of_nil in Hin.
Qed.

Lemma parse_route_mins_line label mins :
  label <> [] -> Forall (fun c => isspace c = false) label ->
  parse_route_mins (Some (label ++ py " " ++ str_int mins))
  = (Some label, Some mins).
Proof.
  intros Hne Hns. unfold parse_route_mins.
  destruct (line_not_dashes label (str_int mins)) as [H1 H2].
  rewrite (bool_decide_eq_false_2 _ H1), (bool_decide_eq_false_2 _ H2).
  cbn [orb].
  rewrite strip_line
    by (destruct label as [|c l]; [done|]; exists c, l; by inversion Hns).
  rewrite split_whitespace_word by done.
  rewrite split_whitespace_last by (apply str_int_nonempty || apply str_int_no_space).
  simpl. by rewrite int_str_int.
Qed.



End Client.

(** X21. For a width >= 0 the padded text has exactly that width: a
    shorter text is followed by spaces, a longer one is cut to its first
    width characters. *)
Theorem pad_right_width s width :
  0 <= width ->
  len (pad_right s width) = width
  /\ (forall t, s = Some t -> len t <= width ->
        pad_right s width = t ++ spaces (width - len t))
  /\ (forall t, s = Some t -> width <= len t ->
        pad_right s width = take (Z.to_nat width) t).
Proof.
  intros H. split; [by apply len_pad_right|]. split.
  - intros t -> Hle. unfold pad_right. rewrite slice_to_nonneg by done.
    rewrite take_ge by (unfold len in Hle; lia).
    by rewrite Z.max_r by lia.
  - intros t -> Hge. unfold pad_right. rewrite slice_to_nonneg by done.
    rewrite Z.max_l by lia. unfold spaces. simpl. by rewrite app_nil_r.
Qed.

Lemma pad_right_width_witness :
  pad_right (Some (py "Gold")) 6 = py "Gold  "
  /\ len (pad_right None 20) = 20.
Proof.
  split.
  - rewrite (proj1 (proj2 (pad_right_width (Some (py "Gold")) 6 ltac:(lia)))
               (py "Gold") eq_refl) by (vm_compute; discriminate).
    vm_compute. reflexivity.
  - apply pad_right_width. lia.
Defined.



(** X23. What the server prints for an arrival, the client reads back:
    when the label of the route holds no whitespace, parsing the line
    gives the label and the minutes of the row. *)
Theorem client_reads_back_arrival now_sec r :
  Forall (fun c => isspace c = false) (route_name r) ->
  parse_route_mins (Some (format_row now_sec r))
  = (Some (route_name r), Some (Z.max 0 ((dep_sec r - now_sec) / 60))).
Proof.
  intros Hns. unfold format_row. cbv zeta.
  apply parse_route_mins_line; [apply route_name_nonempty|done].
Qed.

Lemma client_reads_back_arrival_witness :
  parse_route_mins
    (Some (format_row 28800
             {| dep_sec := 29370; r_route_id := cell_of "507";
                r_route_short_name := cell_of "Gold";
                r_route_long_name := cell_of "Gold Line" |}))
  = (Some (py "Gold"), Some 9).
Proof.
  rewrite client_reads_back_arrival.
  - vm_compute. reflexivity.
  - apply (bool_decide_eq_true_1 _). vm_compute. reflexivity.
Defined.

(** X24. A label of two words hides the minutes from the client: the
    second word is taken for the minutes.  When it is a run of digits the
    client shows its value instead of the minutes; when it holds a letter
    the line is read as no arrival at all. *)
Theorem client_misreads_two_word_label w1 w2 mins :
  w1 <> [] -> w2 <> [] ->
  Forall (fun c => isspace c = false) w1 ->
  Forall (fun c => isspace c = false) w2 ->
  let line := (w1 ++ py " " ++ w2) ++ py " " ++ str_int mins in
  (Forall is_digit w2 ->
   parse_route_mins (Some line) = (Some w1, Some (digits_value 0 w2)))
  /\ ((exists c, c ∈ w2 /\ is_letter c) ->
      parse_route_mins (Some line) = (None, None)).
Proof.
  intros H1 H2 N1 N2 line.
  assert (Hparse : parse_route_mins (Some line)
                   = match int w2 with
                     | Ok m => (Some w1, Some m)
                     | Raise _ => (None, None)
                     end).
  { unfold parse_route_mins, line.
    destruct (line_not_dashes (w1 ++ py " " ++ w2) (str_int mins)) as [Hn Hd].
    rewrite (bool_decide_eq_false_2 _ Hn), (bool_decide_eq_false_2 _ Hd).
    cbn [orb].
    rewrite strip_line
      by (destruct w1 as [|c l]; [done|]; eexists c, _; by inversion N1).
    rewrite <- !app_assoc. rewrite !split_whitespace_word by done.
    rewrite split_whitespace_last
      by (apply str_int_nonempty || apply str_int_no_space).
    reflexivity. }
  split.
  - intros Hd. by rewrite Hparse, int_digit_run.
  - intros (c & Hc & Hl). by rewrite Hparse, (int_letter w2 c).
Qed.

Lemma client_misreads_two_word_label_witness :
  parse_route_mins (Some (py "Gold Line 9")) = (None, None)
  /\ parse_route_mins (Some (py "Route 10 9")) = (Some (py "Route"), Some 10).
Proof.
  split.
  - change (py "Gold Line 9")
      with ((py "Gold" ++ py " " ++ py "Line") ++ py " " ++ str_int 9).
    apply (client_misreads_two_word_label (py "Gold") (py "Line") 9);
      try done; try (apply (bool_decide_eq_true_1 _); vm_compute; reflexivity).
    exists 76%N. split; [by left|]. left. lia.
  - change (py "Route 10 9")
      with ((py "Route" ++ py " " ++ py "10") ++ py " " ++ str_int 9).
    refine (proj1 (client_misreads_two_word_label (py "Route") (py "10") 9
                     _ _ _ _) _);
      try done; apply (bool_decide_eq_true_1 _); vm_compute; reflexivity.
Defined.

(** ** The ticker *)

Section Marquee.

Lemma nth_frame_fixed k f : nth_frame k (Fixed f) = Some f.
Proof. induction k as [|k IH]; simpl; [done|exact IH]. Qed.

Lemma nth_frame_scroll loop n width k : forall i,
  0 <= i < n ->
  nth_frame k (Scroll loop n width i)
  = Some (slice loop ((i + Z.of_nat k) mod n) ((i + Z.of_nat k) mod n + width)).
Proof.
  induction k as [|k IH]; intros i Hi; simpl nth_frame;
    rewrite (proj2 (Z.leb_gt n 0)) by lia.
  - change (Z.of_nat 0) with 0. rewrite Z.add_0_r.
    rewrite (Z.mod_small i n) by lia. done.
  - destruct (Z.ltb_spec (i + 1) n) as [Hlt|Hge].
    + rewrite IH by lia.
      by replace (i + Z.of_nat (S k)) with (i + 1 + Z.of_nat k) by lia.
    + rewrite IH by lia. assert (i = n - 1) as -> by lia.
      replace (n - 1 + Z.of_nat (S k)) with (0 + Z.of_nat k + 1 * n) by lia.
      by rewrite Z_mod_plus_full.
Qed.

Lemma slice_window {A} (l : list A) a w :
  0 <= a -> 0 <= w -> a + w <= len l ->
  slice l a (a + w) = take (Z.to_nat w) (drop (Z.to_nat a) l).
Proof.
  intros Ha Hw Hl. unfold slice, clamp_index.
  rewrite (proj2 (Z.ltb_ge a 0)), (proj2 (Z.ltb_ge (a + w) 0)) by lia.
  rewrite !Z.min_l by lia. do 2 f_equal. lia.
Qed.

Lemma window_lookup (s : pystr) w a j :
  0 <= w < len s -> 0 <= a < len s -> 0 <= j < w ->
  take (Z.to_nat w) (drop (Z.to_nat a) (s ++ slice_to s w)) !! Z.to_nat j
  = s !! Z.to_nat ((a + j) mod len s).
Proof.
  intros Hw Ha Hj. rewrite slice_to_nonneg by lia.
  rewrite lookup_take_lt by lia. rewrite lookup_drop.
  unfold len in *.
  destruct (Z.lt_ge_cases (a + j) (Z.of_nat (length s))) as [Hlt|Hge].
  - rewrite lookup_app_l by lia. rewrite Z.mod_small by lia. f_equal. lia.
  - rewrite lookup_app_r by lia. rewrite lookup_take_lt by lia.
    replace (a + j) with (a + j - Z.of_nat (length s) + 1 * Z.of_nat (length s))
      by lia.
    rewrite Z_mod_plus_full, Z.mod_small by lia. f_equal. lia.
Qed.

End Marquee.

(** X25. For a width >= 0 every frame of the ticker has exactly that
    width, and the generator always yields.  A text that fits (with its
    padding) is shown still, followed by spaces; a longer one scrolls by
    one character per frame and wraps around: character j of frame k is
    character (k + j) mod len(s) of the padded text s. *)
Theorem marquee_frames_window text width pad k :
  0 <= width ->
  let s := match text with None => py "No alerts" | Some t => t end ++ pad in
  exists frame,
    nth_frame k (marquee_frames text width pad) = Some frame
    /\ len frame = width
    /\ (len s <= width -> frame = s ++ spaces (width - len s))
    /\ (width < len s ->
        forall j, 0 <= j < width ->
          frame !! Z.to_nat j = s !! Z.to_nat ((Z.of_nat k + j) mod len s)).
Proof.
  intros Hw s. unfold marquee_frames. fold s.
  destruct (Z.leb_spec (len s) width) as [Hle|Hgt].
  - rewrite nth_frame_fixed. eexists. split; [done|].
    split; [by apply len_pad_right|]. split; [|lia].
    intros _. unfold pad_right. rewrite slice_to_nonneg by done.
    rewrite take_ge by (unfold len in Hle; lia). by rewrite Z.max_r by lia.
  - rewrite nth_frame_scroll by lia. rewrite Z.add_0_l.
    pose proof (Z.mod_pos_bound (Z.of_nat k) (len s) ltac:(lia)) as Hm.
    assert (Hlen : len (s ++ slice_to s width) = len s + width).
    { rewrite len_app, len_slice_to by done. lia. }
    rewrite slice_window by lia.
    eexists. split; [done|]. split_and!.
    + unfold len in *. rewrite length_take, length_drop. lia.
    + lia.
    + intros _ j Hj. rewrite window_lookup by lia.
      by rewrite Z.add_mod_idemp_l by lia.
Qed.

Lemma marquee_frames_window_witness :
  exists frame,
    nth_frame 3 (marquee_frames (Some (py "Gold delay | Bus 20 detour")) 20
                   (py "    "))
    = Some frame
    /\ len frame = 20
    /\ frame !! 0%nat = Some 100%N.
Proof.
  destruct (marquee_frames_window (Some (py "Gold delay | Bus 20 detour")) 20
              (py "    ") 3 ltac:(lia)) as (frame & Hf & Hlen & _ & Hw).
  exists frame. split_and!; [exact Hf|exact Hlen|].
  change 0%nat with (Z.to_nat 0).
  rewrite (Hw ltac:(vm_compute; reflexivity) 0 ltac:(lia)).
  vm_compute. reflexivity.
Defined.

(** ** The display driver *)

Section Lcd.

Lemma write4_spec nibble rs :
  let d := nibble_byte nibble rs in
  write4 nibble rs true = ([d; d + 4; d], Ok tt) /\ 0 <= d < 252.
Proof.
  unfold write4, nibble_byte. change 0x0F with (Z.ones 4).
  rewrite Z.land_ones by lia. change (2 ^ 4) with 16.
  pose proof (Z.mod_pos_bound nibble 16 ltac:(lia)) as Hb.
  set (x := nibble mod 16) in *.
  assert (Hx : x = 0 \/ x = 1 \/ x = 2 \/ x = 3 \/ x = 4 \/ x = 5 \/ x = 6
               \/ x = 7 \/ x = 8 \/ x = 9 \/ x = 10 \/ x = 11 \/ x = 12
               \/ x = 13 \/ x = 14 \/ x = 15) by lia.
  clearbody x.
  destruct (rs =? 0);
    repeat (destruct Hx as [->|Hx]); subst; vm_compute; (split; [reflexivity|]);
    split; congruence.
Qed.

Lemma send_spec value rs :
  let hi := nibble_byte (value / 16) rs in
  let lo := nibble_byte value rs in
  send value rs = ([hi; hi + 4; hi; lo; lo + 4; lo], Ok tt).
Proof.
  unfold send. change 0x0F with (Z.ones 4).
  rewrite !Z.land_ones by lia. rewrite Z.shiftr_div_pow2 by lia.
  change (2 ^ 4) with 16.
  destruct (write4_spec ((value / 16) mod 16) rs) as [-> _].
  destruct (write4_spec (value mod 16) rs) as [-> _].
  unfold nibble_byte. rewrite !Z.mod_mod by lia. reflexivity.
Qed.

Lemma putstr_spec s :
  exists written, putstr s = (written, Ok tt)
    /\ length written = (6 * length s)%nat
    /\ Forall (fun b => 0 <= b < 256) written.
Proof.
  induction s as [|c s (w & Hw & Hl & Hb)]; simpl.
  - exists []. split_and!; [done|done|constructor].
  - unfold ch. rewrite send_spec, Hw. simpl. eexists. split; [done|].
    split; [simpl; lia|].
    pose proof (write4_spec (Z.of_N c / 16) 1) as [_ H1].
    pose proof (write4_spec (Z.of_N c) 1) as [_ H2]. simpl in H1, H2.
    repeat (constructor; [lia|]). done.
Qed.

Lemma lor_0x80 x : 0 <= x < 128 -> Z.lor 0x80 x = 128 + x.
Proof.
  intros H. rewrite <- Z.lxor_lor, <- Z.add_nocarry_lxor; try done.
  all: rewrite <- (Z.mod_small x 128) by lia; change 128 with (2 ^ 7) at 2;
    rewrite <- Z.land_ones by lia; rewrite (Z.land_comm x), Z.land_assoc;
    reflexivity.
Qed.

Lemma set_cursor_cmd col row :
  let c := Z.max 0 (Z.min 19 col) in
  let r := Z.max 0 (Z.min 3 row) in
  exists offset,
    ROW_OFFSETS !! Z.to_nat r = Some offset
    /\ set_cursor col row = cmd (128 + offset + c)
    /\ (r = 0 /\ offset = 0 \/ r = 1 /\ offset = 64
        \/ r = 2 /\ offset = 20 \/ r = 3 /\ offset = 84).
Proof.
  intros c r. unfold set_cursor. fold c. fold r.
  assert (Hc : 0 <= c <= 19) by (unfold c; lia).
  assert (Hr : r = 0 \/ r = 1 \/ r = 2 \/ r = 3) by (unfold r; lia).
  clearbody c r.
  destruct Hr as [->|[->|[->| ->]]]; simpl; eexists; (split; [reflexivity|]);
    (split; [by rewrite lor_0x80, Z.add_assoc by lia|]); lia.
Qed.

End Lcd.



(** X27. Whatever column and row are asked, the cursor command
    addresses a cell of the display: the column is cut to 0..19 and the
    row to 0..3, the row offset is always found, the address is below 104,
    and two cells have the same address only if they are the same
    cell. *)
Theorem set_cursor_stays_on_display col row :
  let c := Z.max 0 (Z.min 19 col) in
  let r := Z.max 0 (Z.min 3 row) in
  exists offset,
    ROW_OFFSETS !! Z.to_nat r = Some offset
    /\ set_cursor col row = cmd (128 + offset + c)
    /\ 0 <= offset + c < 104
    /\ forall col' row' offset',
         ROW_OFFSETS !! Z.to_nat (Z.max 0 (Z.min 3 row')) = Some offset' ->
         offset' + Z.max 0 (Z.min 19 col') = offset + c ->
         Z.max 0 (Z.min 19 col') = c /\ Z.max 0 (Z.min 3 row') = r.
Proof.
  intros c r.
  destruct (set_cursor_cmd col row) as (o & Ho & Hcmd & Hcase).
  fold c in Hcmd, Hcase. fold r in Ho, Hcase.
  assert (Hc : 0 <= c <= 19) by (unfold c; lia).
  exists o. split; [done|]. split; [done|].
  split; [clear Ho Hcmd; clearbody c r; lia|].
  intros col' row' o' Ho' E.
  destruct (set_cursor_cmd col' row') as (o2 & Ho2 & _ & Hcase').
  cbv zeta in Ho2, Hcase'. rewrite Ho' in Ho2. injection Ho2 as <-.
  set (c' := Z.max 0 (Z.min 19 col')) in *.
  set (r' := Z.max 0 (Z.min 3 row')) in *.
  assert (Hc' : 0 <= c' <= 19) by (unfold c'; lia).
  clear Ho Ho' Hcmd. clearbody c r c' r'. lia.
Qed.

Lemma set_cursor_stays_on_display_witness :
  set_cursor 25 (-1) = cmd (128 + 0 + 19).
Proof.
  destruct (set_cursor_stays_on_display 25 (-1)) as (offset & Ho & -> & _).
  vm_compute in Ho. by injection Ho as <-.
Defined.

(** X28. Writing a row always succeeds and always writes the whole row:
    the cursor command (6 bytes) and exactly 20 characters (120 bytes),
    whatever the text is, every byte within a byte. *)
Theorem write_row_writes_twenty_characters row text :
  exists cursor chars,
    write_row row text = (cursor ++ chars, Ok tt)
    /\ set_cursor 0 row = (cursor, Ok tt)
    /\ putstr (pad_right text 20) = (chars, Ok tt)
    /\ length cursor = 6%nat /\ length chars = 120%nat
    /\ Forall (fun b => 0 <= b < 256) (cursor ++ chars).
Proof.
  unfold write_row.
  destruct (set_cursor_cmd 0 row) as (o & _ & -> & _).
  unfold cmd. rewrite send_spec.
  destruct (putstr_spec (pad_right text 20)) as (w & -> & Hl & Hw).
  assert (H20 : length (pad_right text 20) = 20%nat).
  { pose proof (len_pad_right text 20 ltac:(lia)) as H. unfold len in H. lia. }
  cbv zeta. unfold and_then. cbn [fst snd].
  eexists _, w. split; [reflexivity|]. split; [reflexivity|].
  split; [reflexivity|]. split; [reflexivity|]. split; [lia|].
  pose proof (write4_spec ((128 + o + Z.max 0 (Z.min 19 0)) / 16) 0) as [_ H1].
  pose proof (write4_spec (128 + o + Z.max 0 (Z.min 19 0)) 0) as [_ H2].
  simpl in H1, H2. repeat (constructor; [lia|]). done.
Qed.

Lemma write_row_writes_twenty_characters_witness :
  exists cursor chars,
    write_row 7 (Some (py "a title that is longer than the row"))
    = (cursor ++ chars, Ok tt)
    /\ length cursor = 6%nat /\ length chars = 120%nat.
Proof.
  destruct (write_row_writes_twenty_characters 7
              (Some (py "a title that is longer than the row")))
    as (cu & w & H & _ & _ & Hc & Hl & _).
  exists cu, w. split_and!; [exact H|exact Hc|exact Hl].
Defined.
